(** * ArticleService (apps/backend/src/article): a shallow embedding

    The service layer of the article module: listings with filters and
    pagination, the personal feed, favorites with their cached counter,
    comment deletion and article creation with tag reconciliation.

    The persistence store is an explicit value threaded through a small
    state-and-error monad; the parts of the JavaScript runtime the service
    relies on (String.prototype.trim and split, Set, unary plus) are
    written out in [Module JS].  Regular expressions and the execution of a
    query with its page bounds are taken through an interface,
    [QueryBackend], with the laws the service can count on. *)

From Stdlib Require Import ZArith String Ascii List Lia.
From stdpp Require Import base option list gmap strings sorting fin_maps.

Local Open Scope string_scope.
Local Open Scope Z_scope.

(** ** The JavaScript runtime functions used by the service *)

Module JS.

(** WhiteSpace and LineTerminator code units that fit in one byte: TAB, LF,
    VT, FF, CR and SPACE.  Strings are byte strings here, so the code points
    above U+007F that JavaScript also strips are not represented. *)
Definition is_ws (c : ascii) : bool :=
  let n := nat_of_ascii c in
  ((9 <=? n)%nat && (n <=? 13)%nat) || (n =? 32)%nat.

Fixpoint drop_ws (l : list ascii) : list ascii :=
  match l with
  | c :: l' => if is_ws c then drop_ws l' else l
  | [] => []
  end.

Definition trim_chars (l : list ascii) : list ascii :=
  rev (drop_ws (rev (drop_ws l))).

(** String.prototype.trim *)
Definition trim (s : string) : string :=
  string_of_list_ascii (trim_chars (list_ascii_of_string s)).

(** String.prototype.split with a one-character separator: [cur] holds the
    characters of the piece being read, last one first. *)
Fixpoint split_from (sep : ascii) (cur : list ascii) (s : string) : list string :=
  match s with
  | EmptyString => [string_of_list_ascii (rev cur)]
  | String c s' =>
      if Ascii.eqb c sep
      then string_of_list_ascii (rev cur) :: split_from sep [] s'
      else split_from sep (c :: cur) s'
  end.

Definition split (sep : ascii) (s : string) : list string := split_from sep [] s.

(** [Set.prototype.add]: a value already present keeps its place. *)
Definition set_add (acc : list string) (x : string) : list string :=
  if bool_decide (x ∈ acc) then acc else acc ++ [x].

(** [new Set(iterable)], as the list of its values in insertion order. *)
Definition Set_of (l : list string) : list string := fold_left set_add l [].

(** JavaScript truthiness of a possibly missing string: [undefined] and the
    empty string are falsy. *)
Definition truthy_string (o : option string) : bool :=
  match o with
  | Some s => negb (bool_decide (s = ""))
  | None => false
  end.

(** Numbers as the service meets them.  [JInt z] is a number whose value is
    the integer [z], however it was written; the integers told apart are
    the safe ones, which a number holds exactly (negative zero is not told
    apart from zero).  [JNaN] is NaN, and [JOther] stands for every other
    number (a value that is not an integer, one beyond the safe integers,
    or an infinity), whose value is not tracked. *)
Inductive number := JNaN | JInt (z : Z) | JOther.

(** Number.MAX_SAFE_INTEGER *)
Definition max_safe : Z := 2 ^ 53 - 1.

Definition integer_value (negative : bool) (v : Z) : number :=
  if v <=? max_safe then JInt (if negative then - v else v) else JOther.

Definition digit_of (radix : Z) (c : ascii) : option Z :=
  let n := Z.of_nat (nat_of_ascii c) in
  let v := if (48 <=? n) && (n <=? 57) then Some (n - 48)
           else if (97 <=? n) && (n <=? 102) then Some (n - 87)
           else if (65 <=? n) && (n <=? 70) then Some (n - 55)
           else None in
  match v with
  | Some d => if d <? radix then Some d else None
  | None => None
  end.

(** The value of a non-empty run of digits, [None] when a character is not a
    digit of the radix or the run is empty. *)
Fixpoint digits_from (radix acc : Z) (l : list ascii) : option Z :=
  match l with
  | [] => Some acc
  | c :: l' =>
      match digit_of radix c with
      | Some d => digits_from radix (acc * radix + d) l'
      | None => None
      end
  end.

Definition digits (radix : Z) (l : list ascii) : option Z :=
  match l with
  | [] => None
  | _ => digits_from radix 0 l
  end.

(** The longest prefix of decimal digits and what follows it. *)
Fixpoint span_digits (l : list ascii) : list ascii * list ascii :=
  match l with
  | c :: l' =>
      match digit_of 10 c with
      | Some _ => let '(ds, rest) := span_digits l' in (c :: ds, rest)
      | None => ([], l)
      end
  | [] => ([], [])
  end.

Definition strip_sign (l : list ascii) : bool * list ascii :=
  match l with
  | "+"%char :: r => (false, r)
  | "-"%char :: r => (true, r)
  | _ => (false, l)
  end.

(** ExponentPart, or nothing: the exponent it gives, [None] when what is
    there is no exponent part. *)
Definition exponent_opt (l : list ascii) : option Z :=
  match l with
  | [] => Some 0
  | c :: r =>
      if Ascii.eqb c "e" || Ascii.eqb c "E"
      then let '(negative, ds) := strip_sign r in
           (λ e, if negative then - e else e) <$> digits 10 ds
      else None
  end.

(** The number a decimal literal denotes: the digits [ip] before the dot
    and [fp] after it, read as one integer, times ten to the exponent [e]
    less the number of digits after the dot. *)
Definition decimal_value (negative : bool) (ip fp : list ascii) (e : Z) : number :=
  match digits_from 10 0 (ip ++ fp) with
  | None => JNaN
  | Some m =>
      let k := e - Z.of_nat (length fp) in
      if m =? 0 then JInt 0
      else if 0 <=? k then
        if 16 <? k then JOther else integer_value negative (m * 10 ^ k)
      else if Z.of_nat (length (ip ++ fp)) <? - k then JOther
      else if m mod 10 ^ (- k) =? 0 then integer_value negative (m / 10 ^ (- k))
      else JOther
  end.

Definition radix_literal (radix : Z) (l : list ascii) : number :=
  match digits radix l with
  | Some z => integer_value false z
  | None => JNaN
  end.

(** StrDecimalLiteral after its sign. *)
Definition unsigned_decimal (negative : bool) (l : list ascii) : number :=
  if bool_decide (l = list_ascii_of_string "Infinity") then JOther else
  let '(ip, r1) := span_digits l in
  let '(fp, r2) := match r1 with
                   | "."%char :: r => span_digits r
                   | _ => ([], r1)
                   end in
  match ip, fp with
  | [], [] => JNaN
  | _, _ =>
      match exponent_opt r2 with
      | Some e => decimal_value negative ip fp e
      | None => JNaN
      end
  end.

(** StringToNumber (ECMA-262 7.1.4.1.1): what unary plus does to a string. *)
Definition StringToNumber (s : string) : number :=
  match trim_chars (list_ascii_of_string s) with
  | [] => JInt 0
  | "0"%char :: c :: r =>
      if Ascii.eqb c "x" || Ascii.eqb c "X" then radix_literal 16 r
      else if Ascii.eqb c "o" || Ascii.eqb c "O" then radix_literal 8 r
      else if Ascii.eqb c "b" || Ascii.eqb c "B" then radix_literal 2 r
      else unsigned_decimal false ("0"%char :: c :: r)
  | l => let '(negative, body) := strip_sign l in unsigned_decimal negative body
  end.

(** Unary plus on a property that may be missing: [+undefined] is NaN. *)
Definition to_number (o : option string) : number :=
  match o with
  | Some s => StringToNumber s
  | None => JNaN
  end.

End JS.

(** ** Entities and the store *)

(** Modelled from the spec: the entity classes (user.entity, article.entity,
    comment.entity, tag.entity) are imported by the service but are not
    among the source files; their fields are those of the spec's data model.
    Primary keys are the keys of the tables below; a reference to another
    entity is its key. *)
Record User := mkUser {
  username : string;
  followers : gset Z;
  favorites : gset Z;
}.

Record Article := mkArticle {
  slug : string;
  title : string;
  description : string;
  body : string;
  tagList : list string;
  favoritesCount : Z;
  createdAt : Z;
  author : option Z;
}.

Record Comment := mkComment {
  comment_body : string;
  comment_author : Z;
  comment_article : Z;
}.

Record Tag := mkTag { tag : string }.

Record Store := mkStore {
  users : gmap Z User;
  articles : gmap Z Article;
  comments : gmap Z Comment;
  tags : gmap Z Tag;
}.

Definition set_users (f : gmap Z User → gmap Z User) (s : Store) : Store :=
  mkStore (f (users s)) (articles s) (comments s) (tags s).
Definition set_articles (f : gmap Z Article → gmap Z Article) (s : Store) : Store :=
  mkStore (users s) (f (articles s)) (comments s) (tags s).
Definition set_comments (f : gmap Z Comment → gmap Z Comment) (s : Store) : Store :=
  mkStore (users s) (articles s) (f (comments s)) (tags s).
Definition set_tags (f : gmap Z Tag → gmap Z Tag) (s : Store) : Store :=
  mkStore (users s) (articles s) (comments s) (f (tags s)).

Definition set_favorites (f : gset Z → gset Z) (u : User) : User :=
  mkUser (username u) (followers u) (f (favorites u)).
Definition set_favoritesCount (f : Z → Z) (a : Article) : Article :=
  mkArticle (slug a) (title a) (description a) (body a) (tagList a)
            (f (favoritesCount a)) (createdAt a) (author a).
Definition set_tagList (f : list string → list string) (a : Article) : Article :=
  mkArticle (slug a) (title a) (description a) (body a) (f (tagList a))
            (favoritesCount a) (createdAt a) (author a).

(** The key an auto-increment column gives the next row. *)
Definition next_id {A} (m : gmap Z A) : Z :=
  1 + foldr Z.max 0 (map fst (map_to_list m)).

(** A [findOne] by a column that is not the key: of the rows that match,
    the one with the lowest key. *)
Definition pick_lower {A} (r : Z * A) (acc : option (Z * A)) : option (Z * A) :=
  match acc with
  | Some r' => if r.1 <? r'.1 then Some r else acc
  | None => Some r
  end.

Definition first_row {A} (P : Z * A → bool) (m : gmap Z A) : option (Z * A) :=
  foldr (λ r acc, if P r then pick_lower r acc else acc) None (map_to_list m).

(** ** Results, errors and the service monad *)

(** What the service throws: the ORM's NotFoundError, the
    BadRequestException of [create], the SyntaxError of [new RegExp], and
    the error with which the query builder or the database rejects a
    query. *)
Inductive Error :=
  | NotFoundError
  | BadRequestException (message : string)
  | SyntaxError
  | QueryError.

Inductive Result (A : Type) :=
  | Ok (a : A)
  | Err (e : Error).
Arguments Ok {A} a.
Arguments Err {A} e.

(** A service call runs on a store and leaves a store, whether it returns or
    throws: what was flushed before a throw stays flushed. *)
Definition M (A : Type) : Type := Store → Result A * Store.

Definition ret {A} (a : A) : M A := λ s, (Ok a, s).
Definition throw {A} (e : Error) : M A := λ s, (Err e, s).
Definition bind {A B} (m : M A) (k : A → M B) : M B :=
  λ s, match m s with
       | (Ok a, s') => k a s'
       | (Err e, s') => (Err e, s')
       end.
Definition gets {A} (f : Store → A) : M A := λ s, (Ok (f s), s).
Definition modify (f : Store → Store) : M unit := λ s, (Ok tt, f s).

Notation "x <- m ;; k" := (bind m (λ x, k))
  (at level 100, m at next level, right associativity).
Notation "m ;;; k" := (bind m (λ _, k))
  (at level 100, right associativity).

(** [em.transactional]: the writes of a callback that throws are rolled
    back and the error is thrown again. *)
Definition transactional {A} (m : M A) : M A :=
  λ s, match m s with
       | (Ok a, s') => (Ok a, s')
       | (Err e, _) => (Err e, s)
       end.

(** ** The query layer *)

(** What the service takes from the JavaScript engine and from the ORM's
    query execution without saying how it is done: which patterns
    [new RegExp] accepts, the test of an accepted pattern against a stored
    tag list, and what a page bound does to the ordered rows, [None] when
    the query is rejected with the bound.  A limit that is a positive safe
    integer keeps that many rows, an offset that is a natural safe integer
    skips that many, a bound that is NaN is left out of the query, a
    negative offset is rejected, and a page never holds a row that did not
    match. *)
Class QueryBackend := {
  regexp_valid : string → bool;
  regexp_test : string → list string → bool;
  apply_limit : JS.number → list (Z * Article) → option (list (Z * Article));
  apply_offset : JS.number → list (Z * Article) → option (list (Z * Article));
  apply_limit_pos : ∀ (n : nat) rows,
    (0 < n)%nat → Z.of_nat n ≤ JS.max_safe →
    apply_limit (JS.JInt (Z.of_nat n)) rows = Some (take n rows);
  apply_offset_nat : ∀ (n : nat) rows,
    Z.of_nat n ≤ JS.max_safe →
    apply_offset (JS.JInt (Z.of_nat n)) rows = Some (drop n rows);
  apply_limit_NaN : ∀ rows, apply_limit JS.JNaN rows = Some rows;
  apply_offset_NaN : ∀ rows, apply_offset JS.JNaN rows = Some rows;
  apply_offset_negative : ∀ z rows, z < 0 → apply_offset (JS.JInt z) rows = None;
  apply_limit_sublist : ∀ x rows page, apply_limit x rows = Some page → sublist page rows;
  apply_offset_sublist : ∀ x rows page, apply_offset x rows = Some page → sublist page rows;
}.

(** [userRepository.findOne(id)] *)
Definition user_findOne (id : Z) : M (option User) :=
  gets (λ s, users s !! id).

(** [userRepository.findOneOrFail(id)] *)
Definition user_findOneOrFail (id : Z) : M User :=
  o <- user_findOne id ;;
  match o with
  | Some u => ret u
  | None => throw NotFoundError
  end.

(** [userRepository.findOne({ username })] *)
Definition user_findOne_username (name : string) : M (option (Z * User)) :=
  gets (λ s, first_row (λ r, bool_decide (username r.2 = name)) (users s)).

(** The viewer of a read: [userId ? await findOne(userId) : undefined]. *)
Definition truthy_id (userId : option Z) : bool :=
  match userId with
  | Some id => negb (id =? 0)
  | None => false
  end.

Definition load_viewer (userId : option Z) : M (option User) :=
  match userId with
  | Some id => if truthy_id userId then user_findOne id else ret None
  | None => ret None
  end.

(** [articleRepository.findOne({ slug })] *)
Definition article_by_slug (sl : string) (s : Store) : option (Z * Article) :=
  first_row (λ r, bool_decide (slug r.2 = sl)) (articles s).

Definition article_findOne_slug (sl : string) : M (option (Z * Article)) :=
  gets (article_by_slug sl).

(** [articleRepository.findOneOrFail({ slug })] *)
Definition article_findOneOrFail_slug (sl : string) : M (Z * Article) :=
  o <- article_findOne_slug sl ;;
  match o with
  | Some r => ret r
  | None => throw NotFoundError
  end.

(** A [Partial<Article>] used as a selector: the scalar columns, each
    either given or left out. *)
Record ArticleWhere := mkWhere {
  where_slug : option string;
  where_title : option string;
  where_description : option string;
  where_body : option string;
}.

Definition matches_opt (o : option string) (v : string) : bool :=
  match o with
  | Some x => bool_decide (x = v)
  | None => true
  end.

Definition article_findOne (w : ArticleWhere) : M (option (Z * Article)) :=
  gets (λ s, first_row (λ r, matches_opt (where_slug w) (slug r.2)
                             && matches_opt (where_title w) (title r.2)
                             && matches_opt (where_description w) (description r.2)
                             && matches_opt (where_body w) (body r.2))
                       (articles s)).

(** The query builder: the conditions added with [andWhere], the order, and
    the page bounds set with [limit] and [offset]. *)
Record QueryBuilder := mkQB {
  qb_cond : list (Z * Article → bool);
  qb_orderBy_createdAt_desc : bool;
  qb_limit : option JS.number;
  qb_offset : option JS.number;
}.

Definition createQueryBuilder : QueryBuilder := mkQB [] false None None.
Definition andWhere (c : Z * Article → bool) (qb : QueryBuilder) : QueryBuilder :=
  mkQB (qb_cond qb ++ [c]) (qb_orderBy_createdAt_desc qb) (qb_limit qb) (qb_offset qb).
Definition orderBy_createdAt_desc (qb : QueryBuilder) : QueryBuilder :=
  mkQB (qb_cond qb) true (qb_limit qb) (qb_offset qb).
Definition limit (n : JS.number) (qb : QueryBuilder) : QueryBuilder :=
  mkQB (qb_cond qb) (qb_orderBy_createdAt_desc qb) (Some n) (qb_offset qb).
Definition offset (n : JS.number) (qb : QueryBuilder) : QueryBuilder :=
  mkQB (qb_cond qb) (qb_orderBy_createdAt_desc qb) (qb_limit qb) (Some n).

Definition newer_first (x y : Z * Article) : Prop := createdAt y.2 ≤ createdAt x.2.
#[local] Instance newer_first_dec x y : Decision (newer_first x y).
Proof. unfold newer_first. apply _. Defined.

(** The rows a builder's conditions select, in its order. *)
Definition matching_rows (qb : QueryBuilder) (s : Store) : list (Z * Article) :=
  let rows := filter (λ r, forallb (λ c, c r) (qb_cond qb) = true) (map_to_list (articles s)) in
  if qb_orderBy_createdAt_desc qb then merge_sort newer_first rows else rows.

Definition opt_apply {A} (f : JS.number → A → option A) (o : option JS.number) (x : A)
  : option A :=
  match o with
  | Some n => f n x
  | None => Some x
  end.

(** The rows of a page: the offset skips, then the limit cuts. *)
Definition cut `{QueryBackend} (lim off : option JS.number) (rows : list (Z * Article))
  : option (list (Z * Article)) :=
  opt_apply apply_offset off rows ≫= opt_apply apply_limit lim.

Definition of_option {A} (e : Error) (o : option A) : M A :=
  match o with
  | Some a => ret a
  | None => throw e
  end.

(** [qb.clone().count('id', true).execute('get')]: the distinct ids among
    the matching rows; the clone's page bounds play no part. *)
Definition qb_count (qb : QueryBuilder) : M Z :=
  gets (λ s, Z.of_nat (length (remove_dups (map fst (matching_rows qb s))))).

(** [qb.getResult()]: the query is built with the page bounds and run; it
    is here that a bound the builder does not take is thrown at. *)
Definition qb_getResult `{QueryBackend} (qb : QueryBuilder) : M (list (Z * Article)) :=
  rows <- gets (matching_rows qb) ;;
  of_option QueryError (cut (qb_limit qb) (qb_offset qb) rows).

(** ** The transport view *)

Record ProfileData := mkProfile {
  profile_username : string;
  profile_following : bool;
}.

Record ArticleData := mkArticleData {
  data_id : Z;
  data_slug : string;
  data_title : string;
  data_description : string;
  data_body : string;
  data_tagList : list string;
  data_createdAt : Z;
  data_favorited : bool;
  data_favoritesCount : Z;
  data_author : option ProfileData;
}.

(** Modelled from the spec: [User.toJSON] and [Article.toJSON] belong to the
    entity classes, which are not among the source files.  The view is
    rendered for an optional viewer; the personal flags are computed from
    that viewer's [followers] and [favorites] sets and are false without a
    viewer. *)
Definition User_toJSON (viewer : option User) (id : Z) (u : User) : ProfileData :=
  mkProfile (username u)
            (match viewer with
             | Some v => bool_decide (id ∈ followers v)
             | None => false
             end).

Definition Article_toJSON (s : Store) (viewer : option User) (r : Z * Article) : ArticleData :=
  let '(id, a) := r in
  mkArticleData id (slug a) (title a) (description a) (body a) (tagList a) (createdAt a)
    (match viewer with
     | Some v => bool_decide (id ∈ favorites v)
     | None => false
     end)
    (favoritesCount a)
    (match author a with
     | Some uid => User_toJSON viewer uid <$> (users s !! uid)
     | None => None
     end).

Definition render (viewer : option User) (r : Z * Article) : M ArticleData :=
  gets (λ s, Article_toJSON s viewer r).

Record ArticlesRO := mkArticlesRO {
  ro_articles : list ArticleData;
  articlesCount : Z;
}.

(** ** ArticleService *)

Definition no_articles : ArticlesRO := mkArticlesRO [] 0.

(** [new RegExp(pattern)]: a pattern that is no regular expression is a
    SyntaxError. *)
Definition new_RegExp `{QueryBackend} (pattern : string) : M string :=
  if regexp_valid pattern then ret pattern else throw SyntaxError.

(** [{ tagList: re }] *)
Definition cond_tagList `{QueryBackend} (re : string) (r : Z * Article) : bool :=
  regexp_test re (tagList r.2).

(** [{ author: id }] and [{ author: ids }]: the author column is the given
    key, or one of the given keys. *)
Definition cond_author (ids : list Z) (r : Z * Article) : bool :=
  match author r.2 with
  | Some uid => bool_decide (uid ∈ ids)
  | None => false
  end.

(** The [author] filter of findAll: [None] is the early return. *)
Definition filter_author (query : gmap string string) (qb : QueryBuilder)
  : M (option QueryBuilder) :=
  match query !! "author" with
  | Some name =>
      found <- user_findOne_username name ;;
      match found with
      | None => ret None
      | Some (id, _) => ret (Some (andWhere (cond_author [id]) qb))
      end
  | None => ret (Some qb)
  end.

(** The [favorited] filter of findAll: the identifiers of the named user's
    favorites are matched against the [author] column. *)
Definition filter_favorited (query : gmap string string) (qb : QueryBuilder)
  : M (option QueryBuilder) :=
  match query !! "favorited" with
  | Some name =>
      found <- user_findOne_username name ;;
      match found with
      | None => ret None
      | Some (_, u) =>
          let ids := elements (favorites u) in
          ret (Some (andWhere (cond_author ids) qb))
      end
  | None => ret (Some qb)
  end.

Definition paginate (query : gmap string string) (qb : QueryBuilder) : QueryBuilder :=
  let qb := match query !! "limit" with
            | Some _ => limit (JS.to_number (query !! "limit")) qb
            | None => qb
            end in
  match query !! "offset" with
  | Some _ => offset (JS.to_number (query !! "offset")) qb
  | None => qb
  end.

Definition findAll `{QueryBackend} (userId : option Z) (query : gmap string string)
  : M ArticlesRO :=
  user <- load_viewer userId ;;
  let qb := createQueryBuilder in
  qb <- match query !! "tag" with
        | Some pattern => re <- new_RegExp pattern ;; ret (andWhere (cond_tagList re) qb)
        | None => ret qb
        end ;;
  by_author <- filter_author query qb ;;
  match by_author with
  | None => ret no_articles
  | Some qb =>
      by_favorited <- filter_favorited query qb ;;
      match by_favorited with
      | None => ret no_articles
      | Some qb =>
          let qb := orderBy_createdAt_desc qb in
          count <- qb_count qb ;;
          let qb := paginate query qb in
          rows <- qb_getResult qb ;;
          s <- gets id ;;
          ret (mkArticlesRO (map (Article_toJSON s user) rows) count)
      end
  end.

(** The followers joined to a row of the article table through its author:
    none when the row has no author. *)
Definition author_followers (s : Store) (a : Article) : gset Z :=
  match author a with
  | Some uid => default ∅ (followers <$> users s !! uid)
  | None => ∅
  end.

(** [{ author: { followers: userId } }]: the article's author has the given
    user among its followers.  The followers are joined with a left join,
    and a criterion whose value is undefined is a test for null: without a
    user id the rows that match are those with no follower joined to
    them. *)
Definition cond_author_followers (s : Store) (userId : option Z) (r : Z * Article) : bool :=
  match userId with
  | Some v => bool_decide (v ∈ author_followers s r.2)
  | None => bool_decide (author_followers s r.2 = ∅)
  end.

(** [articleRepository.findAndCount(where, { orderBy, limit, offset })]:
    the page and the number of all matching rows; a bound the builder does
    not take is thrown at.  findFeed also logs the result to the console,
    which changes nothing here. *)
Definition article_findAndCount `{QueryBackend} (c : Store → Z * Article → bool)
    (lim off : JS.number) : M (list (Z * Article) * Z) :=
  rows <- gets (λ s, matching_rows
                       (orderBy_createdAt_desc (andWhere (c s) createQueryBuilder)) s) ;;
  page <- of_option QueryError (cut (Some lim) (Some off) rows) ;;
  ret (page, Z.of_nat (length rows)).

Definition findFeed `{QueryBackend} (userId : option Z) (query : gmap string string)
  : M ArticlesRO :=
  user <- load_viewer userId ;;
  res <- article_findAndCount (λ s, cond_author_followers s userId)
           (JS.to_number (query !! "limit")) (JS.to_number (query !! "offset")) ;;
  s <- gets id ;;
  ret (mkArticlesRO (map (Article_toJSON s user) res.1) res.2).

Definition findOne (userId : option Z) (w : ArticleWhere) : M (option ArticleData) :=
  user <- match userId with
          | Some id =>
              if truthy_id userId
              then u <- user_findOneOrFail id ;; ret (Some u)
              else ret None
          | None => ret None
          end ;;
  article <- article_findOne w ;;
  s <- gets id ;;
  ret (Article_toJSON s user <$> article).

(** [article.comments.contains(commentRepository.getReference(id))]: the
    comment with this key is one of the article's. *)
Definition comments_contains (article_id id : Z) : M bool :=
  gets (λ s, match comments s !! id with
             | Some c => bool_decide (comment_article c = article_id)
             | None => false
             end).

(** A user loaded without [populate]: its followers and favorites are not
    initialized, and a view rendered for it finds nothing in them. *)
Definition unpopulated (u : User) : User := mkUser (username u) ∅ ∅.

(** The user is loaded without its collections, so the view has no personal
    flag set. *)
Definition deleteComment (userId : Z) (sl : string) (id : Z) : M ArticleData :=
  article <- article_findOneOrFail_slug sl ;;
  loaded <- user_findOneOrFail userId ;;
  let user := unpopulated loaded in
  member <- comments_contains article.1 id ;;
  (if member then modify (set_comments (delete id)) else ret tt) ;;;
  render (Some user) article.

(** [em.flush()] with the loaded user and article as the managed entities:
    their current state is written back. *)
Definition flush (uid : Z) (u : User) (aid : Z) (a : Article) : M unit :=
  modify (λ s, set_articles <[aid := a]> (set_users <[uid := u]> s)).

Definition favorite (id : Z) (sl : string) : M ArticleData :=
  found <- article_findOneOrFail_slug sl ;;
  user <- user_findOneOrFail id ;;
  let '(aid, article) := found in
  let '(user, article) :=
    if negb (bool_decide (aid ∈ favorites user))
    then (set_favorites (λ f, f ∪ {[aid]}) user, set_favoritesCount (λ n, n + 1) article)
    else (user, article) in
  flush id user aid article ;;;
  render (Some user) (aid, article).

Definition unFavorite (id : Z) (sl : string) : M ArticleData :=
  found <- article_findOneOrFail_slug sl ;;
  user <- user_findOneOrFail id ;;
  let '(aid, article) := found in
  let '(user, article) :=
    if bool_decide (aid ∈ favorites user)
    then (set_favorites (λ f, f ∖ {[aid]}) user, set_favoritesCount (λ n, n - 1) article)
    else (user, article) in
  flush id user aid article ;;;
  render (Some user) (aid, article).

(** The [tagList] of a CreateArticleDto: a string, an array of strings, or
    anything else (left out, for one). *)
Inductive TagListInput :=
  | TagString (s : string)
  | TagArray (l : list string)
  | TagOther.

Record CreateArticleDto := mkDto {
  dto_title : option string;
  dto_description : option string;
  dto_body : option string;
  dto_tagList : TagListInput;
}.

(** The [tags] array of processTags: the trimmed pieces of the input. *)
Definition trimmed_tags (tagList : TagListInput) : list string :=
  match tagList with
  | TagString s => map JS.trim (JS.split "," s)
  | TagArray l => map JS.trim l
  | TagOther => []
  end.

Definition processTags (tagList : TagListInput) : list string :=
  let tags := trimmed_tags tagList in
  JS.Set_of tags.

(** Modelled from the spec: the [Article] constructor is part of the entity
    class, which is not among the source files.  A new article has its
    author and content, a slug derived from the title, no tags and no
    favorites.  The derived slug [sl] and the clock reading [now] are handed
    in by the caller. *)
Definition new_Article (now : Z) (sl : string) (author : option Z)
    (title description body : string) : Article :=
  mkArticle sl title description body [] 0 now author.

Definition persist_article (a : Article) : M Z :=
  λ s, let id := next_id (articles s) in (Ok id, set_articles <[id := a]> s).

Definition persist_tag (t : Tag) : M unit :=
  modify (set_tags (λ m, <[next_id m := t]> m)).

(** [tagRepository.find({ tag: names })] *)
Definition tag_find (names : list string) : M (list Tag) :=
  gets (λ s, map snd (filter (λ r, tag r.2 ∈ names) (map_to_list (tags s)))).

Fixpoint for_each {A} (l : list A) (f : A → M unit) : M unit :=
  match l with
  | [] => ret tt
  | x :: l' => f x ;;; for_each l' f
  end.

Definition required_message : string := "Title, description, and body are required.".

Definition create (now : Z) (sl : string) (userId : Z) (dto : CreateArticleDto)
  : M ArticleData :=
  if negb (JS.truthy_string (dto_title dto))
     || negb (JS.truthy_string (dto_description dto))
     || negb (JS.truthy_string (dto_body dto))
  then throw (BadRequestException required_message)
  else
    user <- user_findOne userId ;;
    let article := new_Article now sl (match user with Some _ => Some userId | None => None end)
                     (default "" (dto_title dto)) (default "" (dto_description dto))
                     (default "" (dto_body dto)) in
    let tagsToAdd := processTags (dto_tagList dto) in
    let article := set_tagList (λ l, (l ++ tagsToAdd)%list) article in
    (* user?.articles.add(article): the other side of the author reference
       the constructor has set; it has no column of its own *)
    aid <- transactional (
      aid <- persist_article article ;;
      existingTags <- tag_find tagsToAdd ;;
      let existingTagNames := JS.Set_of (map tag existingTags) in
      for_each tagsToAdd (λ tagName,
        if negb (bool_decide (tagName ∈ existingTagNames))
        then persist_tag (mkTag tagName)
        else ret tt) ;;;
      ret aid) ;;
    render user (aid, article).

(** ** A reference backend and sample stores, for running the service *)

(** String.prototype.includes *)
Fixpoint includes (s part : string) : bool :=
  String.prefix part s ||
  match s with
  | String _ s' => includes s' part
  | EmptyString => false
  end.

(** ASCII letters to lower case. *)
Definition lower_char (c : ascii) : ascii :=
  let n := nat_of_ascii c in
  if ((65 <=? n)%nat && (n <=? 90)%nat) then ascii_of_nat (n + 32) else c.

Fixpoint toLowerCase (s : string) : string :=
  match s with
  | String c s' => String (lower_char c) (toLowerCase s')
  | EmptyString => EmptyString
  end.

(** The characters with a meaning of their own in a pattern. *)
Definition metacharacter (c : ascii) : bool :=
  bool_decide (c ∈ list_ascii_of_string "\^$.|?*+()[]{}").

(** The reference backend takes the patterns without metacharacters, and no
    other: such a pattern matches where it occurs in the stored column, the
    tag names joined by commas. *)
Definition literal_pattern (pattern : string) : bool :=
  forallb (λ c, negb (metacharacter c)) (list_ascii_of_string pattern).

Definition literal_test (pattern : string) (tl : list string) : bool :=
  includes (String.concat "," tl) pattern.

(** The page bounds of the reference backend.  A limit of zero counts as
    none given and a negative one is rejected; a negative offset is
    rejected; a number whose value is not tracked is left out of the
    query. *)
Definition limit_rows (n : JS.number) (rows : list (Z * Article))
  : option (list (Z * Article)) :=
  match n with
  | JS.JInt z => if 0 <? z then Some (take (Z.to_nat z) rows)
                 else if z =? 0 then Some rows else None
  | _ => Some rows
  end.

Definition offset_rows (n : JS.number) (rows : list (Z * Article))
  : option (list (Z * Article)) :=
  match n with
  | JS.JInt z => if z <? 0 then None else Some (drop (Z.to_nat z) rows)
  | _ => Some rows
  end.

(** The reference backend meets the interface. *)
Definition reference_backend : QueryBackend.
Proof.
  refine (Build_QueryBackend literal_pattern literal_test limit_rows offset_rows
            _ _ _ _ _ _ _).
  - intros n rows Hn _. unfold limit_rows.
    destruct (Z.ltb_spec 0 (Z.of_nat n)); [by rewrite Nat2Z.id | lia].
  - intros n rows _. unfold offset_rows.
    destruct (Z.ltb_spec (Z.of_nat n) 0); [lia | by rewrite Nat2Z.id].
  - done.
  - done.
  - intros z rows Hz. unfold offset_rows. destruct (Z.ltb_spec z 0); [done | lia].
  - intros x rows page. destruct x as [|z|]; simpl; try (by intros [= <-]).
    destruct (0 <? z); [intros [= <-]; apply sublist_take|].
    destruct (z =? 0); [by intros [= <-] | done].
  - intros x rows page. destruct x as [|z|]; simpl; try (by intros [= <-]).
    destruct (z <? 0); [done|]. intros [= <-]. apply sublist_drop.
Defined.

(** Two users and two articles.  Bob (2) wrote article 1 and has favorited
    it; Alice (1) wrote article 2, which nobody has favorited. *)
Definition alice : User := mkUser "alice" ∅ ∅.
Definition bob : User := mkUser "bob" {[1]} {[1]}.

Definition sample_store : Store :=
  mkStore {[1 := alice; 2 := bob]}
          {[1 := mkArticle "first" "First" "d1" "b1" ["foo"] 1 100 (Some 2);
            2 := mkArticle "second" "Second" "d2" "b2" ["bar"] 0 200 (Some 1)]}
          {[1 := mkComment "nice" 1 1; 2 := mkComment "thanks" 2 2]}
          {[1 := mkTag "foo"]}.

(** Five articles by Alice, written at times 10 to 50. *)
Definition five_articles : Store :=
  mkStore {[1 := alice]}
          (list_to_map
             (map (λ r : Z * string, (r.1, mkArticle r.2 "t" "d" "b" [] 0 (10 * r.1) (Some 1)))
                  [(1, "one"); (2, "two"); (3, "three"); (4, "four"); (5, "five")]))
          ∅ ∅.

(** What a listing call returned: the keys of the articles, in order, and
    the reported count; [None] when it threw. *)
Definition listing (r : Result ArticlesRO * Store) : option (list Z * Z) :=
  match r.1 with
  | Ok ro => Some (map data_id (ro_articles ro), articlesCount ro)
  | Err _ => None
  end.

(** The counter of the article with a given slug, and the favorites of a
    user, as stored. *)
Definition stored_count (sl : string) (s : Store) : option Z :=
  (λ r, favoritesCount r.2) <$> article_by_slug sl s.

Definition stored_favorites (id : Z) (s : Store) : option (list Z) :=
  (λ u, elements (favorites u)) <$> users s !! id.

(** The number of users whose favorites hold the article. *)
Definition favoritedBy (aid : Z) (s : Store) : nat :=
  size (filter (λ r, aid ∈ favorites r.2) (users s)).

(** The cached counter of every article agrees with the favorites sets. *)
Definition counters_in_sync (s : Store) : Prop :=
  map_Forall (λ aid a, favoritesCount a = Z.of_nat (favoritedBy aid s)) (articles s).

(** Whether a call returned. *)
Definition returned {A} (r : Result A * Store) : bool :=
  match r.1 with
  | Ok _ => true
  | Err _ => false
  end.

(** A row of the Tag table with a given name, and the number of them. *)
Definition named (t : string) (r : Z * Tag) : Prop := tag r.2 = t.
#[local] Instance named_dec t r : Decision (named t r).
Proof. unfold named. apply _. Defined.

Definition tag_rows (name : string) (s : Store) : nat :=
  size (filter (named name) (tags s)).

(** The comments of an article: those that name it as their article. *)
Definition article_comments (aid : Z) (s : Store) : gmap Z Comment :=
  filter (λ r, comment_article r.2 = aid) (comments s).

(** The Tag table after the loop of [create]: a name without a row among
    the rows found gets a new row. *)
Definition insert_missing (existing names : list string) (tbl : gmap Z Tag) : gmap Z Tag :=
  fold_left (λ tbl name, if bool_decide (name ∈ existing) then tbl
                         else <[next_id tbl := mkTag name]> tbl) names tbl.

(** A required field that is left out or empty. *)
Definition missing (o : option string) : Prop := o = None ∨ o = Some "".

(** 1 for true, 0 for false. *)
Definition flag (b : bool) : nat := if b then 1%nat else 0%nat.


(** The page bounds a query asks for, as the builder receives them. *)
Definition bound (q : gmap string string) (key : string) : option JS.number :=
  JS.StringToNumber <$> q !! key.

(** The page of a query: its limit and offset, as numbers, applied to the
    ordered rows; [None] when the query is rejected with them. *)
Definition page_of `{QueryBackend} (q : gmap string string) (rows : list (Z * Article))
  : option (list (Z * Article)) :=
  cut (bound q "limit") (bound q "offset") rows.

(** Whether the pattern of the tag filter, when there is one, is a regular
    expression. *)
Definition tag_valid `{QueryBackend} (q : gmap string string) : bool :=
  match q !! "tag" with
  | Some pattern => regexp_valid pattern
  | None => true
  end.

(** The user a lookup by name finds: of the users with the name, the one
    with the lowest key. *)
Definition first_named (s : Store) (name : string) (uid : Z) (u : User) : Prop :=
  users s !! uid = Some u ∧ username u = name ∧
  ∀ k v, users s !! k = Some v → username v = name → uid ≤ k.

(** The tag filter of a query, on an article: passed when there is none. *)
Definition passes_tag `{QueryBackend} (q : gmap string string) (a : Article) : Prop :=
  match q !! "tag" with
  | Some pattern => regexp_test pattern (tagList a) = true
  | None => True
  end.

(** The articles the filters of a query select, as the service applies
    them: the tag pattern matches the tag list; the author is the named
    user; and, for [favorited], the key in the author column is one of the
    keys in the named user's favorites. *)
Definition selected `{QueryBackend} (q : gmap string string) (s : Store) (a : Article)
  : Prop :=
  passes_tag q a ∧
  match q !! "author" with
  | Some name => ∃ uid u, first_named s name uid u ∧ author a = Some uid
  | None => True
  end ∧
  match q !! "favorited" with
  | Some name => ∃ uid u x, first_named s name uid u ∧ author a = Some x ∧ x ∈ favorites u
  | None => True
  end.

(** The users the [author] and [favorited] filters name exist. *)
Definition resolved (q : gmap string string) (s : Store) : Prop :=
  ∀ key name, key = "author" ∨ key = "favorited" → q !! key = Some name →
    ∃ uid u, first_named s name uid u.

(** What a listing call comes to on the rows that match: the page rendered
    for the viewer with the count of all the rows, or the error of a
    rejected page. *)
Definition paged (s : Store) (u : option User) (rows : list (Z * Article))
    (page : option (list (Z * Article))) : Result ArticlesRO * Store :=
  match page with
  | Some page => (Ok (mkArticlesRO (map (Article_toJSON s u) page)
                                   (Z.of_nat (length rows))), s)
  | None => (Err QueryError, s)
  end.

(** ** The rest of the service: comments, update and delete *)

(** Modelled from the spec: the [Comment] constructor is part of the entity
    class, which is not among the source files.  A comment has its author,
    its article and its body. *)
Definition new_Comment (author article : Z) (body : string) : Comment :=
  mkComment body author article.

Record CreateCommentDto := mkCommentDto { dto_comment_body : string }.

Definition persist_comment (c : Comment) : M Z :=
  λ s, let id := next_id (comments s) in (Ok id, set_comments <[id := c]> s).

(** The comment is returned with the key it was given.  The author is
    loaded without its collections, as in deleteComment. *)
Definition addComment (userId : Z) (sl : string) (dto : CreateCommentDto)
  : M (Z * Comment * ArticleData) :=
  article <- article_findOneOrFail_slug sl ;;
  loaded <- user_findOneOrFail userId ;;
  let author := unpopulated loaded in
  let comment := new_Comment userId article.1 (dto_comment_body dto) in
  id <- persist_comment comment ;;
  data <- render (Some author) article ;;
  ret (id, comment, data).

(** What a call that can also fail on a null reference comes to: it
    returns, or it throws a TypeError. *)
Inductive Outcome (A : Type) :=
  | Returned (a : A)
  | TypeError.
Arguments Returned {A} a.
Arguments TypeError {A}.

(** [findOne({ slug }, { populate: ['comments'] })] and then
    [article!.comments.getItems()]: the article is not checked for null. *)
Definition findComments (sl : string) (s : Store) : Outcome (list (Z * Comment)) * Store :=
  match article_by_slug sl s with
  | Some (aid, _) => (Returned (map_to_list (article_comments aid s)), s)
  | None => (TypeError, s)
  end.

(** The [articleData] of update: the columns it gives, each one given or
    left out. *)
Record ArticlePatch := mkPatch {
  patch_slug : option string;
  patch_title : option string;
  patch_description : option string;
  patch_body : option string;
  patch_tagList : option (list string);
  patch_favoritesCount : option Z;
  patch_createdAt : option Z;
  patch_author : option Z;
}.

(** [wrap(article).assign(articleData)]: a column that is given is
    overwritten. *)
Definition assign (p : ArticlePatch) (a : Article) : Article :=
  mkArticle (default (slug a) (patch_slug p))
            (default (title a) (patch_title p))
            (default (description a) (patch_description p))
            (default (body a) (patch_body p))
            (default (tagList a) (patch_tagList p))
            (default (favoritesCount a) (patch_favoritesCount p))
            (default (createdAt a) (patch_createdAt p))
            (match patch_author p with Some uid => Some uid | None => author a end).

(** The patch that gives nothing. *)
Definition no_patch : ArticlePatch := mkPatch None None None None None None None None.

(** update looks the user and the article up with [findOne] and checks
    neither: the user serves the view only, and a missing article fails at
    [assign], before the flush. *)
Definition update (userId : Z) (sl : string) (articleData : ArticlePatch) (s : Store)
  : Outcome ArticleData * Store :=
  let user := users s !! userId in
  match article_by_slug sl s with
  | Some (aid, article) =>
      let article := assign articleData article in
      let s' := set_articles <[aid := article]> s in
      (Returned (Article_toJSON s' user (aid, article)), s')
  | None => (TypeError, s)
  end.

Definition has_slug (sl : string) (r : Z * Article) : Prop := slug r.2 = sl.
#[local] Instance has_slug_dec sl r : Decision (has_slug sl r).
Proof. unfold has_slug. apply _. Defined.

(** The comments that refer to one of the given articles. *)
Definition comments_of (doomed : gmap Z Article) (s : Store) : gmap Z Comment :=
  filter (λ r, is_Some (doomed !! comment_article r.2)) (comments s).

Module ArticleService.

(** [articleRepository.nativeDelete({ slug })]: one DELETE on the article
    table, which answers with the number of rows it removed.  The database
    refuses it, and removes nothing, when a comment refers to one of the
    rows; the rows of the favorites relation that refer to a removed
    article go with it. *)
Definition delete (sl : string) : M Z :=
  λ s, let doomed := filter (has_slug sl) (articles s) in
       if decide (comments_of doomed s = ∅)
       then (Ok (Z.of_nat (size doomed)),
             set_users (fmap (set_favorites (λ f, f ∖ dom doomed)))
               (set_articles (filter (λ r, ¬ has_slug sl r)) s))
       else (Err QueryError, s).

End ArticleService.

(** The viewer holds favorites of existing articles only. *)
Definition favorites_exist (s : Store) : Prop :=
  map_Forall (λ _ u, ∀ aid, aid ∈ favorites u → is_Some (articles s !! aid)) (users s).

(** No name has two rows in the Tag table. *)
Definition tags_unique (s : Store) : Prop := ∀ t, (tag_rows t s ≤ 1)%nat.

(** Newest first, on the rendered articles. *)
Definition not_older (x y : ArticleData) : Prop := data_createdAt y ≤ data_createdAt x.

(** A run of characters with no white space at either end. *)
Definition trimmed (l : list ascii) : Prop :=
  (∀ c l', l = c :: l' → JS.is_ws c = false) ∧
  (∀ c l', l = (l' ++ [c])%list → JS.is_ws c = false).

(** What a call returned, if it did. *)
Definition value {A} (r : Result A * Store) : option A :=
  match r.1 with
  | Ok a => Some a
  | Err _ => None
  end.

(** The builder findAll has when it comes to the count: the conditions of
    the tag, author and favorited filters, in the order; [None] when a
    filter returned early. *)
Definition listing_builder `{QueryBackend} (q : gmap string string) (s : Store)
  : option QueryBuilder :=
  let qb := match q !! "tag" with
            | Some pattern => andWhere (cond_tagList pattern) createQueryBuilder
            | None => createQueryBuilder
            end in
  match value (filter_author q qb s) with
  | Some (Some qb) =>
      match value (filter_favorited q qb s) with
      | Some (Some qb) => Some (orderBy_createdAt_desc qb)
      | _ => None
      end
  | _ => None
  end.

(** The rows findAll counts: those of its builder, none after an early
    return. *)
Definition matched `{QueryBackend} (q : gmap string string) (s : Store)
  : list (Z * Article) :=
  match listing_builder q s with
  | Some qb => matching_rows qb s
  | None => []
  end.

(** The user is a follower of the author of the article. *)
Definition by_followed (s : Store) (v : Z) (a : Article) : Prop :=
  ∃ uid au, author a = Some uid ∧ users s !! uid = Some au ∧ v ∈ followers au.


(** The article [create] writes, and the store it leaves, for a caller that
    exists and a dto that passes the check. *)
Definition created_article (now : Z) (sl : string) (userId : Z) (dto : CreateArticleDto)
  : Article :=
  mkArticle sl (default "" (dto_title dto)) (default "" (dto_description dto))
            (default "" (dto_body dto)) (processTags (dto_tagList dto)) 0 now (Some userId).

Definition created_store (now : Z) (sl : string) (userId : Z) (dto : CreateArticleDto)
    (s : Store) : Store :=
  let names := processTags (dto_tagList dto) in
  let existing := JS.Set_of (map tag (map snd
                    (filter (λ r : Z * Tag, tag r.2 ∈ names) (map_to_list (tags s))))) in
  set_tags (insert_missing existing names)
    (set_articles <[next_id (articles s) := created_article now sl userId dto]> s).

(** * Properties *)

(** ** Lookups by a column *)

Section first_row.
Context {A : Type} (P : Z * A → bool).

Lemma pick_lowest_list (l : list (Z * A)) :
  match foldr (λ r acc, if P r then pick_lower r acc else acc) None l with
  | Some r => r ∈ l ∧ P r = true ∧ ∀ r', r' ∈ l → P r' = true → r.1 ≤ r'.1
  | None => ∀ r', r' ∈ l → P r' = false
  end.
Proof.
  induction l as [|x l IH]; simpl.
  - intros r' Hr'. by apply elem_of_nil in Hr'.
  - destruct (foldr _ None l) as [r|]; destruct (P x) eqn:HPx; simpl.
    + destruct IH as (Hin & HPr & Hmin).
      destruct (x.1 <? r.1) eqn:Hlt.
      * apply Z.ltb_lt in Hlt. split; [left|split; [done|]].
        intros r' [->|Hr']%elem_of_cons HP'; [lia|].
        specialize (Hmin r' Hr' HP'). lia.
      * apply Z.ltb_ge in Hlt. split; [by right|split; [done|]].
        intros r' [->|Hr']%elem_of_cons HP'; [lia|]. by apply Hmin.
    + destruct IH as (Hin & HPr & Hmin). split; [by right|split; [done|]].
      intros r' [->|Hr']%elem_of_cons HP'; [congruence|]. by apply Hmin.
    + split; [left|split; [done|]].
      intros r' [->|Hr']%elem_of_cons HP'; [lia|]. rewrite IH in HP'; done.
    + intros r' [->|Hr']%elem_of_cons; [done|]. by apply IH.
Qed.

Lemma first_row_Some (m : gmap Z A) k v :
  first_row P m = Some (k, v) ↔
  m !! k = Some v ∧ P (k, v) = true ∧
  ∀ k' v', m !! k' = Some v' → P (k', v') = true → k ≤ k'.
Proof.
  unfold first_row. pose proof (pick_lowest_list (map_to_list m)) as Hl.
  destruct (foldr _ None (map_to_list m)) as [[k0 v0]|].
  - destruct Hl as (Hin & HP0 & Hmin). apply elem_of_map_to_list in Hin.
    split.
    + intros [= <- <-]. split; [done|split; [done|]].
      intros k' v' Hk' HP'. apply (Hmin (k', v')); [|done].
      by apply elem_of_map_to_list.
    + intros (Hk & HPk & Hleast).
      assert (k0 = k) as ->.
      { apply Z.le_antisymm.
        - apply (Hmin (k, v)); [by apply elem_of_map_to_list|done].
        - by apply (Hleast k0 v0). }
      congruence.
  - split; [done|]. intros (Hk & HPk & _).
    rewrite (Hl (k, v)) in HPk; [done|]. by apply elem_of_map_to_list.
Qed.

Lemma first_row_None (m : gmap Z A) :
  first_row P m = None ↔ ∀ k v, m !! k = Some v → P (k, v) = false.
Proof.
  unfold first_row. pose proof (pick_lowest_list (map_to_list m)) as Hl.
  destruct (foldr _ None (map_to_list m)) as [[k0 v0]|].
  - destruct Hl as (Hin & HP0 & _). apply elem_of_map_to_list in Hin.
    split; [done|]. intros Hall. rewrite (Hall _ _ Hin) in HP0. done.
  - split; [|done]. intros _ k v Hk. apply (Hl (k, v)).
    by apply elem_of_map_to_list.
Qed.
End first_row.

(** Writing a row back with the same slug does not change which row a slug
    addresses. *)
Lemma article_by_slug_update sl s aid a a' f :
  article_by_slug sl s = Some (aid, a) →
  slug a' = slug a →
  article_by_slug sl (set_articles <[aid := a']> (set_users f s)) = Some (aid, a').
Proof.
  unfold article_by_slug. simpl. rewrite !first_row_Some. simpl.
  intros (Hk & HP & Hleast) Hslug. split; [by rewrite lookup_insert_eq|].
  split; [by rewrite Hslug|].
  intros k' v'. destruct (decide (k' = aid)) as [->|Hne]; [lia|].
  rewrite lookup_insert_ne by done. apply Hleast.
Qed.

Lemma article_by_slug_lookup sl s aid a :
  article_by_slug sl s = Some (aid, a) → articles s !! aid = Some a ∧ slug a = sl.
Proof.
  unfold article_by_slug. rewrite first_row_Some. simpl.
  intros (Hk & HP & _). split; [done|]. by apply bool_decide_eq_true in HP.
Qed.

(** ** Favorites and the cached counter *)

(** What [favorite] does on a store, case by case. *)
Lemma favorite_run s id sl :
  favorite id sl s =
  match article_by_slug sl s with
  | None => (Err NotFoundError, s)
  | Some (aid, a) =>
      match users s !! id with
      | None => (Err NotFoundError, s)
      | Some u =>
          let '(u', a') :=
            if bool_decide (aid ∈ favorites u) then (u, a)
            else (set_favorites (λ f, f ∪ {[aid]}) u, set_favoritesCount (λ n, n + 1) a) in
          let s' := set_articles <[aid := a']> (set_users <[id := u']> s) in
          (Ok (Article_toJSON s' (Some u') (aid, a')), s')
      end
  end.
Proof.
  unfold favorite, bind, article_findOneOrFail_slug, article_findOne_slug,
    user_findOneOrFail, user_findOne, bind, gets, ret, throw. simpl.
  destruct (article_by_slug sl s) as [[aid a]|]; simpl; [|done].
  destruct (users s !! id) as [u|]; simpl; [|done].
  by destruct (bool_decide (aid ∈ favorites u)).
Qed.

Lemma unFavorite_run s id sl :
  unFavorite id sl s =
  match article_by_slug sl s with
  | None => (Err NotFoundError, s)
  | Some (aid, a) =>
      match users s !! id with
      | None => (Err NotFoundError, s)
      | Some u =>
          let '(u', a') :=
            if bool_decide (aid ∈ favorites u)
            then (set_favorites (λ f, f ∖ {[aid]}) u, set_favoritesCount (λ n, n - 1) a)
            else (u, a) in
          let s' := set_articles <[aid := a']> (set_users <[id := u']> s) in
          (Ok (Article_toJSON s' (Some u') (aid, a')), s')
      end
  end.
Proof.
  unfold unFavorite, bind, article_findOneOrFail_slug, article_findOne_slug,
    user_findOneOrFail, user_findOne, bind, gets, ret, throw. simpl.
  destruct (article_by_slug sl s) as [[aid a]|]; simpl; [|done].
  destruct (users s !! id) as [u|]; simpl; [|done].
  by destruct (bool_decide (aid ∈ favorites u)).
Qed.

(** Writing back untouched entities changes nothing. *)
Lemma flush_unchanged s id u aid a :
  users s !! id = Some u → articles s !! aid = Some a →
  set_articles <[aid := a]> (set_users <[id := u]> s) = s.
Proof.
  intros Hu Ha. destruct s as [us ar cs ts]. unfold set_articles, set_users. simpl in *.
  by rewrite !insert_id.
Qed.

(** Rewriting one user moves the number of users who hold an article by
    that user's membership alone. *)
Lemma favoritedBy_write aid s id u u' g :
  users s !! id = Some u →
  (favoritedBy aid (set_articles g (set_users <[id := u']> s))
     + flag (bool_decide (aid ∈ favorites u))
   = favoritedBy aid s + flag (bool_decide (aid ∈ favorites u')))%nat.
Proof.
  intros Hu. unfold favoritedBy. simpl.
  set (P := λ r : Z * User, aid ∈ favorites r.2).
  rewrite (map_filter_insert P). unfold flag.
  destruct (decide (P (id, u'))) as [Hin'|Hin']; unfold P in Hin'; simpl in Hin'.
  - rewrite (bool_decide_eq_true_2 _ Hin'), map_size_insert, map_lookup_filter, Hu.
    simpl. case_bool_decide as Hin.
    + rewrite option_guard_True by done. simpl. lia.
    + rewrite option_guard_False by done. simpl. lia.
  - rewrite (bool_decide_eq_false_2 _ Hin'), map_filter_delete, map_size_delete,
      map_lookup_filter, Hu.
    simpl. case_bool_decide as Hin.
    + rewrite option_guard_True by done. simpl.
      assert (size (filter P (users s)) ≠ 0%nat).
      { apply (map_size_ne_0_lookup_2 _ id). rewrite map_lookup_filter, Hu. simpl.
        by rewrite option_guard_True. }
      lia.
    + rewrite option_guard_False by done. simpl. lia.
Qed.

Lemma favorites_add_other (f : gset Z) aid x : x ≠ aid → x ∈ f ∪ {[aid]} ↔ x ∈ f.
Proof. rewrite elem_of_union, elem_of_singleton. tauto. Qed.

Lemma favorites_add_self (f : gset Z) aid : aid ∈ f ∪ {[aid]}.
Proof. rewrite elem_of_union, elem_of_singleton. tauto. Qed.

Lemma favorites_remove_other (f : gset Z) aid x : x ≠ aid → x ∈ f ∖ {[aid]} ↔ x ∈ f.
Proof. rewrite elem_of_difference, elem_of_singleton. tauto. Qed.

Lemma favorites_remove_self (f : gset Z) aid : aid ∉ f ∖ {[aid]}.
Proof. rewrite elem_of_difference, elem_of_singleton. tauto. Qed.

(** Writing back a user and an article keeps the counters in sync when the
    article's counter moves with the user's membership. *)
Lemma write_back_in_sync s id u u' aid a a' :
  counters_in_sync s →
  users s !! id = Some u → articles s !! aid = Some a →
  (∀ x, x ≠ aid → (x ∈ favorites u' ↔ x ∈ favorites u)) →
  (favoritesCount a' + Z.of_nat (flag (bool_decide (aid ∈ favorites u)))
   = favoritesCount a + Z.of_nat (flag (bool_decide (aid ∈ favorites u')))) →
  counters_in_sync (set_articles <[aid := a']> (set_users <[id := u']> s)).
Proof.
  intros Hsync Hu Ha Hother Hcount x ax Hx.
  unfold counters_in_sync, map_Forall in Hsync. cbv beta.
  pose proof (favoritedBy_write x s id u u' <[aid := a']> Hu) as Hn.
  simpl in Hx. destruct (decide (x = aid)) as [->|Hne].
  - rewrite lookup_insert_eq in Hx. injection Hx as <-.
    specialize (Hsync _ _ Ha). lia.
  - rewrite lookup_insert_ne in Hx by done. specialize (Hsync _ _ Hx).
    rewrite (bool_decide_ext _ _ (Hother x Hne)) in Hn. lia.
Qed.

(** C2. After a completed favorite or unFavorite the counter of the
    addressed article, which is the count the call reports, equals the
    number of users whose favorites hold the article, given that it did
    before the call; and when the counters of all articles agreed with the
    favorites sets before a call, completed or not, they all do after it. *)
Theorem favorite_unFavorite_counter_in_sync s id sl r s' :
  favorite id sl s = (r, s') ∨ unFavorite id sl s = (r, s') →
  (counters_in_sync s → counters_in_sync s') ∧
  ∀ data, r = Ok data →
    ∃ a0 a,
      article_by_slug sl s = Some (data_id data, a0) ∧
      article_by_slug sl s' = Some (data_id data, a) ∧
      data_favoritesCount data = favoritesCount a ∧
      (favoritesCount a0 = Z.of_nat (favoritedBy (data_id data) s) →
       favoritesCount a = Z.of_nat (favoritedBy (data_id data) s')).
Proof.
  intros Hrun.
  assert (∀ aid a u u' a',
    article_by_slug sl s = Some (aid, a) → users s !! id = Some u →
    slug a' = slug a →
    (∀ x, x ≠ aid → (x ∈ favorites u' ↔ x ∈ favorites u)) →
    (favoritesCount a' + Z.of_nat (flag (bool_decide (aid ∈ favorites u)))
     = favoritesCount a + Z.of_nat (flag (bool_decide (aid ∈ favorites u')))) →
    let s1 := set_articles <[aid := a']> (set_users <[id := u']> s) in
    (counters_in_sync s → counters_in_sync s1) ∧
    article_by_slug sl s1 = Some (aid, a') ∧
    (favoritesCount a = Z.of_nat (favoritedBy aid s) →
     favoritesCount a' = Z.of_nat (favoritedBy aid s1))) as Hstep.
  { intros aid a u u' a' Hfind Hu Hslug Hother Hcount s1.
    destruct (article_by_slug_lookup _ _ _ _ Hfind) as [Ha _].
    split; [intros Hsync; by apply (write_back_in_sync s id u u' aid a a')|].
    split; [by apply (article_by_slug_update sl s aid a)|].
    intros Hbefore.
    pose proof (favoritedBy_write aid s id u u' <[aid := a']> Hu) as Hn.
    fold s1 in Hn. lia. }
  destruct Hrun as [Hrun|Hrun];
    [rewrite favorite_run in Hrun|rewrite unFavorite_run in Hrun];
    (destruct (article_by_slug sl s) as [[aid a]|] eqn:Hfind;
      [|injection Hrun as <- <-; by split]);
    (destruct (users s !! id) as [u|] eqn:Hu;
      [|injection Hrun as <- <-; by split]);
    destruct (bool_decide (aid ∈ favorites u)) eqn:Hmem; simpl in Hrun;
    injection Hrun as <- <-.
  - destruct (Hstep aid a u u a eq_refl eq_refl eq_refl) as (Hs & Hf & Hc);
      [done|done|].
    split; [done|]. intros data [= <-]. simpl. by exists a, a.
  - destruct (Hstep aid a u (set_favorites (λ f, f ∪ {[aid]}) u)
                (set_favoritesCount (λ n, n + 1) a) eq_refl eq_refl eq_refl)
      as (Hs & Hf & Hc).
    { intros x Hx. simpl. by apply favorites_add_other. }
    { simpl. rewrite Hmem, bool_decide_eq_true_2 by apply favorites_add_self. simpl. lia. }
    split; [done|]. intros data [= <-]. simpl. by eexists a, _.
  - destruct (Hstep aid a u (set_favorites (λ f, f ∖ {[aid]}) u)
                (set_favoritesCount (λ n, n - 1) a) eq_refl eq_refl eq_refl)
      as (Hs & Hf & Hc).
    { intros x Hx. simpl. by apply favorites_remove_other. }
    { simpl. rewrite Hmem, bool_decide_eq_false_2 by apply favorites_remove_self. simpl. lia. }
    split; [done|]. intros data [= <-]. simpl. by eexists a, _.
  - destruct (Hstep aid a u u a eq_refl eq_refl eq_refl) as (Hs & Hf & Hc);
      [done|done|].
    split; [done|]. intros data [= <-]. simpl. by exists a, a.
Qed.

Lemma sample_store_in_sync : counters_in_sync sample_store.
Proof. apply (bool_decide_unpack _). by vm_compute. Qed.

Lemma favorite_unFavorite_counter_in_sync_witness :
  counters_in_sync sample_store ∧
  counters_in_sync (favorite 1 "second" sample_store).2.
Proof.
  split; [exact sample_store_in_sync|].
  exact (proj1 (favorite_unFavorite_counter_in_sync sample_store 1 "second" _ _
                  (or_introl (surjective_pairing (favorite 1 "second" sample_store))))
               sample_store_in_sync).
Defined.

(** C3 as stated fails when the user had already favorited the article: Bob
    holds article "first", whose counter is 1; favorite is then a no-op and
    unFavorite takes the counter to 0. *)
Lemma favorite_unFavorite_after_favorited :
  stored_favorites 2 sample_store = Some [1] ∧
  stored_count "first" sample_store = Some 1 ∧
  returned (favorite 2 "first" sample_store) = true ∧
  returned (unFavorite 2 "first" (favorite 2 "first" sample_store).2) = true ∧
  stored_count "first" (unFavorite 2 "first" (favorite 2 "first" sample_store).2).2 = Some 0.
Proof. by vm_compute. Qed.

(** C3, amended. For a user and an article that both exist, favorite and
    then unFavorite both return and leave the user's favorites without the
    article; the counter is back at its value before the two calls when the
    user did not hold the article before, and one below it when the user
    did. *)
Theorem favorite_then_unFavorite s id sl u aid a :
  users s !! id = Some u →
  article_by_slug sl s = Some (aid, a) →
  ∃ d1 s1 d2 s2,
    favorite id sl s = (Ok d1, s1) ∧
    unFavorite id sl s1 = (Ok d2, s2) ∧
    (∃ u2, users s2 !! id = Some u2 ∧ aid ∉ favorites u2) ∧
    stored_count sl s2 =
      Some (if bool_decide (aid ∈ favorites u) then favoritesCount a - 1 else favoritesCount a).
Proof.
  intros Hu Hfind. rewrite favorite_run, Hfind, Hu.
  destruct (bool_decide (aid ∈ favorites u)) eqn:Hmem; cbv beta iota zeta.
  - set (s1 := set_articles <[aid := a]> (set_users <[id := u]> s)).
    assert (article_by_slug sl s1 = Some (aid, a)) as Hfind1
      by (by apply (article_by_slug_update sl s aid a)).
    assert (users s1 !! id = Some u) as Hu1 by (simpl; apply lookup_insert_eq).
    eexists _, s1. rewrite unFavorite_run, Hfind1, Hu1, Hmem. cbv beta iota zeta.
    eexists _, _. split; [done|]. split; [done|]. split.
    + eexists. split; [simpl; apply lookup_insert_eq|].
      simpl. apply favorites_remove_self.
    + unfold stored_count.
      by rewrite (article_by_slug_update sl s1 aid a (set_favoritesCount (λ n, n - 1) a) _
                    Hfind1 eq_refl).
  - set (u1 := set_favorites (λ f, f ∪ {[aid]}) u).
    set (a1 := set_favoritesCount (λ n, n + 1) a).
    set (s1 := set_articles <[aid := a1]> (set_users <[id := u1]> s)).
    assert (article_by_slug sl s1 = Some (aid, a1)) as Hfind1
      by (by apply (article_by_slug_update sl s aid a)).
    assert (users s1 !! id = Some u1) as Hu1 by (simpl; apply lookup_insert_eq).
    assert (bool_decide (aid ∈ favorites u1) = true) as Hmem1
      by (apply bool_decide_eq_true_2, favorites_add_self).
    eexists _, s1. rewrite unFavorite_run, Hfind1, Hu1, Hmem1. cbv beta iota zeta.
    eexists _, _. split; [done|]. split; [done|]. split.
    + eexists. split; [simpl; apply lookup_insert_eq|].
      simpl. apply favorites_remove_self.
    + unfold stored_count.
      rewrite (article_by_slug_update sl s1 aid a1 (set_favoritesCount (λ n, n - 1) a1) _
                 Hfind1 eq_refl).
      simpl. f_equal. lia.
Qed.

Lemma favorite_then_unFavorite_witness :
  ∃ d1 s1 d2 s2,
    favorite 1 "second" sample_store = (Ok d1, s1) ∧
    unFavorite 1 "second" s1 = (Ok d2, s2) ∧
    (∃ u2, users s2 !! 1 = Some u2 ∧ 2 ∉ favorites u2) ∧
    stored_count "second" s2 = Some 0.
Proof.
  exact (favorite_then_unFavorite sample_store 1 "second" alice 2
           (mkArticle "second" "Second" "d2" "b2" ["bar"] 0 200 (Some 1))
           eq_refl eq_refl).
Defined.

(** ** Listings *)

Lemma NoDup_remove_dups_id {A} `{EqDecision A} (l : list A) :
  NoDup l → remove_dups l = l.
Proof.
  induction 1 as [|x l Hx Hl IH]; simpl; [done|].
  destruct (decide_rel elem_of x l) as [Hin|_]; [done|by rewrite IH].
Qed.

Lemma matching_rows_keys qb s : NoDup (map fst (matching_rows qb s)).
Proof.
  unfold matching_rows.
  set (rows := filter _ (map_to_list (articles s))).
  assert (NoDup (map fst rows)) as Hrows.
  { eapply sublist_NoDup; [apply (NoDup_fst_map_to_list (articles s))|].
    apply fmap_sublist, sublist_filter. }
  destruct (qb_orderBy_createdAt_desc qb); [|done].
  by rewrite (merge_sort_Permutation newer_first rows).
Qed.

Lemma matching_rows_paginate q qb s :
  matching_rows (paginate q qb) s = matching_rows qb s.
Proof. unfold paginate. by destruct (q !! "limit"), (q !! "offset"). Qed.

Lemma paginate_bounds q qb :
  qb_limit qb = None → qb_offset qb = None →
  qb_limit (paginate q qb) = bound q "limit" ∧ qb_offset (paginate q qb) = bound q "offset".
Proof.
  unfold paginate, bound. intros Hl Ho.
  destruct (q !! "limit"), (q !! "offset"); simpl; by rewrite ?Hl, ?Ho.
Qed.

Lemma StronglySorted_sublist {A} (R : relation A) (l1 l2 : list A) :
  sublist l1 l2 → StronglySorted R l2 → StronglySorted R l1.
Proof.
  induction 1 as [|x l1 l2 Hsub IH|x l1 l2 Hsub IH]; intros Hs.
  - done.
  - apply StronglySorted_cons in Hs as [Hall Hs]. apply StronglySorted_cons.
    split; [|by apply IH].
    apply Forall_forall. intros y Hy. rewrite Forall_forall in Hall.
    apply Hall. by eapply elem_of_sublist.
  - apply StronglySorted_cons in Hs as [_ Hs]. by apply IH.
Qed.

#[local] Instance newer_first_trans : Transitive newer_first.
Proof. unfold newer_first. intros x y z ??. lia. Qed.

#[local] Instance newer_first_total : Total newer_first.
Proof. unfold newer_first. intros x y. lia. Qed.

Lemma matching_rows_sorted qb s :
  qb_orderBy_createdAt_desc qb = true → StronglySorted newer_first (matching_rows qb s).
Proof. unfold matching_rows. intros ->. apply StronglySorted_merge_sort; apply _. Qed.

Lemma elem_of_matching_rows qb s k a :
  (k, a) ∈ matching_rows qb s ↔
  articles s !! k = Some a ∧ ∀ c, c ∈ qb_cond qb → c (k, a) = true.
Proof.
  unfold matching_rows.
  assert ((k, a) ∈ filter (λ r, forallb (λ c, c r) (qb_cond qb) = true)
                     (map_to_list (articles s))
          ↔ articles s !! k = Some a ∧ ∀ c, c ∈ qb_cond qb → c (k, a) = true) as Hrows.
  { rewrite list_elem_of_filter, elem_of_map_to_list, forallb_forall.
    setoid_rewrite <- list_elem_of_In. tauto. }
  destruct (qb_orderBy_createdAt_desc qb); [|done].
  by rewrite merge_sort_Permutation.
Qed.

Lemma andWhere_conds c qb r :
  (∀ c', c' ∈ qb_cond (andWhere c qb) → c' r = true)
  ↔ (∀ c', c' ∈ qb_cond qb → c' r = true) ∧ c r = true.
Proof.
  simpl. split.
  - intros Hall. split.
    + intros c' Hc'. apply Hall, elem_of_app. by left.
    + apply Hall, elem_of_app. right. by apply list_elem_of_singleton.
  - intros [Hall Hc] c' [Hc'| ->%list_elem_of_singleton]%elem_of_app; [by apply Hall|done].
Qed.

Lemma cond_author_one uid k a : cond_author [uid] (k, a) = true ↔ author a = Some uid.
Proof.
  unfold cond_author. simpl. destruct (author a) as [x|]; [|done].
  rewrite bool_decide_eq_true, list_elem_of_singleton. split; congruence.
Qed.

Lemma cond_author_favorites u k a :
  cond_author (elements (favorites u)) (k, a) = true
  ↔ ∃ x, author a = Some x ∧ x ∈ favorites u.
Proof.
  unfold cond_author. simpl. destruct (author a) as [x|].
  - rewrite bool_decide_eq_true, elem_of_elements. split.
    + intros Hx. by exists x.
    + by intros (x' & [= <-] & Hx).
  - split; [done|]. by intros (x & ? & _).
Qed.

Lemma load_viewer_run userId s : ∃ u, load_viewer userId s = (Ok u, s).
Proof.
  unfold load_viewer, user_findOne, gets, ret.
  destruct userId as [id|]; [destruct (truthy_id (Some id))|]; eauto.
Qed.

(** A lookup by name finds the first user of that name. *)
Lemma first_named_row s name uid u :
  first_row (λ r : Z * User, bool_decide (username r.2 = name)) (users s) = Some (uid, u)
  ↔ first_named s name uid u.
Proof.
  rewrite first_row_Some. unfold first_named. simpl.
  split; intros (Hk & HP & Hleast); (split; [done|split]).
  - by apply bool_decide_eq_true in HP.
  - intros k v Hkv Hn. apply (Hleast k v Hkv). by apply bool_decide_eq_true.
  - by apply bool_decide_eq_true.
  - intros k v Hkv Hn. apply (Hleast k v Hkv). by apply bool_decide_eq_true in Hn.
Qed.

Lemma filter_author_run q qb s :
  filter_author q qb s =
  (Ok match q !! "author" with
      | Some name =>
          (λ r : Z * User, andWhere (cond_author [r.1]) qb)
            <$> first_row (λ r, bool_decide (username r.2 = name)) (users s)
      | None => Some qb
      end, s).
Proof.
  unfold filter_author, bind, user_findOne_username, gets, ret.
  destruct (q !! "author") as [name|]; [|done].
  by destruct (first_row _ (users s)) as [[id u]|].
Qed.

Lemma filter_favorited_run q qb s :
  filter_favorited q qb s =
  (Ok match q !! "favorited" with
      | Some name =>
          (λ r : Z * User, andWhere (cond_author (elements (favorites r.2))) qb)
            <$> first_row (λ r, bool_decide (username r.2 = name)) (users s)
      | None => Some qb
      end, s).
Proof.
  unfold filter_favorited, bind, user_findOne_username, gets, ret.
  destruct (q !! "favorited") as [name|]; [|done].
  by destruct (first_row _ (users s)) as [[id u]|].
Qed.

Lemma data_id_toJSON s u rows : map data_id (map (Article_toJSON s u) rows) = map fst rows.
Proof. rewrite map_map. apply map_ext. by intros [k a]. Qed.



Section listings.
Context `{QueryBackend}.

Lemma cut_sublist lim off rows page : cut lim off rows = Some page → sublist page rows.
Proof.
  unfold cut, opt_apply. intros Hcut.
  apply bind_Some in Hcut as (skipped & Hoff & Hlim).
  assert (sublist skipped rows) as Hs.
  { destruct off; [by eapply apply_offset_sublist|]. by injection Hoff as <-. }
  etrans; [|exact Hs].
  destruct lim; [by eapply apply_limit_sublist|]. by injection Hlim as <-.
Qed.

Lemma page_of_unbounded q rows :
  q !! "limit" = None → q !! "offset" = None → page_of q rows = Some rows.
Proof. unfold page_of, bound. by intros -> ->. Qed.







Lemma tag_conds q k a :
  (∀ c, c ∈ qb_cond (match q !! "tag" with
                     | Some pattern => andWhere (cond_tagList pattern) createQueryBuilder
                     | None => createQueryBuilder
                     end) → c (k, a) = true)
  ↔ passes_tag q a.
Proof.
  unfold passes_tag. destruct (q !! "tag") as [pattern|].
  - rewrite andWhere_conds. simpl. split; [by intros [_ ?]|].
    intros Ht. split; [|done]. by intros c []%elem_of_nil.
  - simpl. split; [done|]. by intros _ c []%elem_of_nil.
Qed.

(** The builder of a listing: it is ordered, it has no page bound, and its
    conditions hold of the articles the filters select; after an early
    return there is no article to select. *)
Lemma listing_builder_spec q s :
  match listing_builder q s with
  | Some qb =>
      qb_orderBy_createdAt_desc qb = true ∧ qb_limit qb = None ∧ qb_offset qb = None ∧
      resolved q s ∧
      ∀ k a, (∀ c, c ∈ qb_cond qb → c (k, a) = true) ↔ selected q s a
  | None => (∀ a, ¬ selected q s a) ∧ ¬ resolved q s
  end.
Proof.
  unfold listing_builder.
  set (qb1 := match q !! "tag" with
              | Some pattern => andWhere (cond_tagList pattern) createQueryBuilder
              | None => createQueryBuilder
              end).
  assert (qb_limit qb1 = None ∧ qb_offset qb1 = None) as [Hl1 Ho1]
    by (unfold qb1; by destruct (q !! "tag")).
  pose proof (tag_conds q) as Htag. fold qb1 in Htag.
  rewrite filter_author_run. unfold value at 1. simpl fst.
  destruct (q !! "author") as [an|] eqn:Ea.
  - destruct (first_row _ (users s)) as [[uid u]|] eqn:Fa; simpl.
    + rewrite filter_favorited_run. unfold value. simpl fst.
      destruct (q !! "favorited") as [fn|] eqn:Ef.
      * destruct (first_row (λ r : Z * User, bool_decide (username r.2 = fn)) (users s))
          as [[fid fu]|] eqn:Ff; simpl.
        -- split; [done|]. split; [done|]. split; [done|]. split.
           { intros key name [-> | ->] Hq.
             - assert (name = an) as -> by congruence. exists uid, u. by apply first_named_row.
             - assert (name = fn) as -> by congruence. exists fid, fu. by apply first_named_row. }
           intros k a.
           pose proof (andWhere_conds (cond_author (elements (favorites fu)))
                         (andWhere (cond_author [uid]) qb1) (k, a)) as Hc.
           simpl in Hc. rewrite Hc. clear Hc.
           pose proof (andWhere_conds (cond_author [uid]) qb1 (k, a)) as Hc.
           simpl in Hc. rewrite Hc. clear Hc.
           rewrite Htag, cond_author_one, cond_author_favorites.
           unfold selected. rewrite Ea, Ef. split.
           ++ intros [[Ht Ha] (x & Hx & Hin)]. split; [done|]. split.
              ** exists uid, u. split; [by apply first_named_row|done].
              ** exists fid, fu, x. split; [by apply first_named_row|done].
           ++ intros (Ht & (uid' & u' & Hn & Ha) & (fid' & fu' & x & Hn' & Hx & Hin)).
              apply first_named_row in Hn, Hn'. rewrite Fa in Hn. rewrite Ff in Hn'.
              injection Hn as <- <-. injection Hn' as <- <-. split; [done|]. by exists x.
        -- split.
           ++ intros a (_ & _ & Hsel). unfold selected in Hsel. revert Hsel. rewrite Ef.
              intros (fid & fu & x & Hn & _). apply first_named_row in Hn. congruence.
           ++ intros Hres. destruct (Hres "favorited" fn (or_intror eq_refl) Ef)
                as (fid & fu & Hn).
              apply first_named_row in Hn. congruence.
      * simpl. split; [done|]. split; [done|]. split; [done|]. split.
        { intros key name [-> | ->] Hq; [|congruence].
          assert (name = an) as -> by congruence. exists uid, u. by apply first_named_row. }
        intros k a.
        pose proof (andWhere_conds (cond_author [uid]) qb1 (k, a)) as Hc.
        simpl in Hc. rewrite Hc. clear Hc.
        rewrite Htag, cond_author_one. unfold selected. rewrite Ea, Ef. split.
        -- intros [Ht Ha]. split; [done|]. split; [|done].
           exists uid, u. split; [by apply first_named_row|done].
        -- intros (Ht & (uid' & u' & Hn & Ha) & _).
           apply first_named_row in Hn. rewrite Fa in Hn. by injection Hn as <- <-.
    + split.
      * intros a (_ & Hsel & _). revert Hsel. rewrite Ea.
        intros (uid & u & Hn & _). apply first_named_row in Hn. congruence.
      * intros Hres. destruct (Hres "author" an (or_introl eq_refl) Ea) as (uid & u & Hn).
        apply first_named_row in Hn. congruence.
  - rewrite filter_favorited_run. unfold value. simpl fst.
    destruct (q !! "favorited") as [fn|] eqn:Ef.
    + destruct (first_row (λ r : Z * User, bool_decide (username r.2 = fn)) (users s))
        as [[fid fu]|] eqn:Ff; simpl.
      * split; [done|]. split; [done|]. split; [done|]. split.
        { intros key name [-> | ->] Hq; [congruence|].
          assert (name = fn) as -> by congruence. exists fid, fu. by apply first_named_row. }
        intros k a.
        pose proof (andWhere_conds (cond_author (elements (favorites fu))) qb1 (k, a)) as Hc.
        simpl in Hc. rewrite Hc. clear Hc.
        rewrite Htag, cond_author_favorites. unfold selected. rewrite Ea, Ef. split.
        -- intros [Ht (x & Hx & Hin)]. split; [done|]. split; [done|].
           exists fid, fu, x. split; [by apply first_named_row|done].
        -- intros (Ht & _ & (fid' & fu' & x & Hn' & Hx & Hin)).
           apply first_named_row in Hn'. rewrite Ff in Hn'.
           injection Hn' as <- <-. split; [done|]. by exists x.
      * split.
        -- intros a (_ & _ & Hsel). revert Hsel. rewrite Ef.
           intros (fid & fu & x & Hn & _). apply first_named_row in Hn. congruence.
        -- intros Hres. destruct (Hres "favorited" fn (or_intror eq_refl) Ef)
             as (fid & fu & Hn).
           apply first_named_row in Hn. congruence.
    + simpl. split; [done|]. split; [done|]. split; [done|]. split.
      { intros key name [-> | ->] Hq; congruence. }
      intros k a. rewrite Htag. unfold selected. rewrite Ea, Ef. tauto.
Qed.

(** The rows findAll counts are the articles its filters select, each one
    once, newest first. *)
Lemma matched_spec q s :
  NoDup (map fst (matched q s)) ∧ StronglySorted newer_first (matched q s) ∧
  ∀ k a, (k, a) ∈ matched q s ↔ articles s !! k = Some a ∧ selected q s a.
Proof.
  unfold matched. pose proof (listing_builder_spec q s) as Hqb.
  destruct (listing_builder q s) as [qb|].
  - destruct Hqb as (Hord & _ & _ & _ & Hsel). split; [apply matching_rows_keys|].
    split; [by apply matching_rows_sorted|].
    intros k a. by rewrite elem_of_matching_rows, Hsel.
  - destruct Hqb as [Hno _]. split; [constructor|]. split; [constructor|].
    intros k a. split; [by intros []%elem_of_nil|]. intros [_ Hsel]. by apply Hno in Hsel.
Qed.

Lemma listing_builder_unfold q s :
  listing_builder q s =
  match match q !! "author" with
        | Some name =>
            (λ r : Z * User,
               andWhere (cond_author [r.1])
                 match q !! "tag" with
                 | Some pattern => andWhere (cond_tagList pattern) createQueryBuilder
                 | None => createQueryBuilder
                 end)
              <$> first_row (λ r, bool_decide (username r.2 = name)) (users s)
        | None => Some match q !! "tag" with
                       | Some pattern => andWhere (cond_tagList pattern) createQueryBuilder
                       | None => createQueryBuilder
                       end
        end with
  | Some qb2 =>
      match match q !! "favorited" with
            | Some name =>
                (λ r : Z * User, andWhere (cond_author (elements (favorites r.2))) qb2)
                  <$> first_row (λ r, bool_decide (username r.2 = name)) (users s)
            | None => Some qb2
            end with
      | Some qb3 => Some (orderBy_createdAt_desc qb3)
      | None => None
      end
  | None => None
  end.
Proof.
  unfold listing_builder. rewrite filter_author_run. unfold value at 1. simpl fst.
  destruct (match q !! "author" with Some _ => _ | None => _ end) as [qb2|]; [|done].
  by rewrite filter_favorited_run.
Qed.

(** findAll in one piece: the viewer, the pattern, the builder and the
    page. *)
Lemma findAll_run userId q s :
  ∃ u, load_viewer userId s = (Ok u, s) ∧
    findAll userId q s =
    if tag_valid q then
      match listing_builder q s with
      | Some _ => paged s u (matched q s) (page_of q (matched q s))
      | None => (Ok no_articles, s)
      end
    else (Err SyntaxError, s).
Proof.
  destruct (load_viewer_run userId s) as [u Hu]. exists u. split; [done|].
  pose proof (listing_builder_spec q s) as Hqb. unfold matched. revert Hqb.
  rewrite listing_builder_unfold.
  unfold findAll, tag_valid. unfold bind at 1. rewrite Hu.
  unfold bind at 1, new_RegExp.
  set (qb1 := match q !! "tag" with
              | Some pattern => andWhere (cond_tagList pattern) createQueryBuilder
              | None => createQueryBuilder
              end).
  assert (match q !! "tag" with
          | Some pattern =>
              bind (if regexp_valid pattern then ret pattern else throw SyntaxError)
                (λ re, ret (andWhere (cond_tagList re) createQueryBuilder))
          | None => ret createQueryBuilder
          end s
          = if match q !! "tag" with
               | Some pattern => regexp_valid pattern
               | None => true
               end
            then (Ok qb1, s) else (Err SyntaxError, s)) as ->.
  { unfold qb1, bind, ret, throw. destruct (q !! "tag") as [pattern|]; [|done].
    by destruct (regexp_valid pattern). }
  destruct (match q !! "tag" with Some pattern => regexp_valid pattern | None => true end);
    [|done].
  unfold bind at 1. rewrite filter_author_run.
  destruct (match q !! "author" with Some _ => _ | None => _ end) as [qb2|]; [|done].
  unfold bind at 1. rewrite filter_favorited_run.
  destruct (match q !! "favorited" with Some _ => _ | None => _ end) as [qb3|]; [|done].
  intros (_ & Hl & Ho & _).
  unfold qb_count, qb_getResult, bind, gets, of_option, ret, throw. cbv beta iota zeta.
  rewrite matching_rows_paginate.
  rewrite (NoDup_remove_dups_id _ (matching_rows_keys _ s)), length_map.
  destruct (paginate_bounds q (orderBy_createdAt_desc qb3) Hl Ho) as [-> ->].
  fold (page_of q (matching_rows (orderBy_createdAt_desc qb3) s)).
  by destruct (page_of q _).
Qed.

(** A call that returns reports the number of the rows and renders a page
    cut from them. *)
Lemma findAll_Ok userId q s ro s' :
  findAll userId q s = (Ok ro, s') →
  s' = s ∧ tag_valid q = true ∧
  ∃ u page, load_viewer userId s = (Ok u, s) ∧ sublist page (matched q s) ∧
    ro = mkArticlesRO (map (Article_toJSON s u) page) (Z.of_nat (length (matched q s))).
Proof.
  destruct (findAll_run userId q s) as (u & Hu & ->).
  destruct (tag_valid q); [|done].
  pose proof (matched_spec q s) as _.
  unfold matched. destruct (listing_builder q s) as [qb|].
  - unfold paged, page_of. destruct (cut _ _ _) as [page|] eqn:Hcut; [|done].
    intros [= <- <-]. split; [done|]. split; [done|].
    exists u, page. split; [done|]. split; [by eapply cut_sublist|done].
  - intros [= <- <-]. split; [done|]. split; [done|]. by exists u, [].
Qed.

(** A call whose page is accepted returns it with the count of all the
    rows. *)
Lemma findAll_page userId q s page :
  tag_valid q = true → page_of q (matched q s) = Some page →
  ∃ u, load_viewer userId s = (Ok u, s) ∧
    findAll userId q s =
    (Ok (mkArticlesRO (map (Article_toJSON s u) page) (Z.of_nat (length (matched q s)))), s).
Proof.
  intros Hv Hpage. destruct (findAll_run userId q s) as (u & Hu & ->).
  exists u. split; [done|]. rewrite Hv. revert Hpage. unfold matched.
  destruct (listing_builder q s) as [qb|].
  - by intros ->.
  - intros Hpage. apply cut_sublist, sublist_nil_r in Hpage. by subst page.
Qed.
End listings.






(** C1. The favorited filter matches the identifiers of the named user's
    favorite articles against the author column.  Bob's only favorite is
    article 1; the listing for [favorited=bob] is article 2, which Alice
    (user 1) wrote and Bob has not favorited, and article 1 is left out. *)
Theorem findAll_favorited_matches_author_column :
  stored_favorites 2 sample_store = Some [1] ∧
  author <$> articles sample_store !! 2 = Some (Some 1) ∧
  listing (@findAll reference_backend None {["favorited" := "bob"]} sample_store)
    = Some ([2], 1).
Proof. by vm_compute. Qed.



Lemma cond_author_followers_Some s v k a :
  cond_author_followers s (Some v) (k, a) = true ↔ by_followed s v a.
Proof.
  unfold cond_author_followers, by_followed, author_followers. simpl.
  rewrite bool_decide_eq_true. destruct (author a) as [uid|].
  - destruct (users s !! uid) as [au|] eqn:Hau; simpl.
    + split; [intros Hin; by exists uid, au|].
      intros (uid' & au' & [= <-] & Hau' & Hin). congruence.
    + split; [by intros ?%elem_of_empty|]. intros (uid' & au' & [= <-] & Hau' & _).
      congruence.
  - split; [by intros ?%elem_of_empty|]. by intros (uid' & au' & ? & _).
Qed.

(** findFeed in one piece: the viewer, the rows of the criterion and the
    page. *)
Lemma findFeed_run `{QueryBackend} userId q s :
  ∃ u, load_viewer userId s = (Ok u, s) ∧
    let rows := matching_rows
                  (orderBy_createdAt_desc
                     (andWhere (cond_author_followers s userId) createQueryBuilder)) s in
    findFeed userId q s =
    paged s u rows
      (cut (Some (JS.to_number (q !! "limit"))) (Some (JS.to_number (q !! "offset"))) rows).
Proof.
  destruct (load_viewer_run userId s) as [u Hu]. exists u. split; [done|].
  cbv zeta. unfold findFeed, bind, article_findAndCount, bind, gets, of_option, ret, throw.
  rewrite Hu. unfold paged. by destruct (cut _ _ _).
Qed.



(** C10. With a viewer id for which there is no user, findOne fails with
    NotFound whatever article is asked for, while findAll does what it does
    without a viewer: the same outcome with the same articles, which is a
    listing when the tag pattern, if there is one, is a regular expression
    and no page bound is given. *)
Theorem findOne_unknown_viewer_fails `{QueryBackend} s id w q :
  id ≠ 0 → users s !! id = None →
  findOne (Some id) w s = (Err NotFoundError, s) ∧
  returned (findOne None w s) = true ∧
  findAll (Some id) q s = findAll None q s ∧
  (tag_valid q = true → q !! "limit" = None → q !! "offset" = None →
   returned (findAll (Some id) q s) = true).
Proof.
  intros Hid Hnone.
  assert (truthy_id (Some id) = true) as Htruthy
    by (simpl; by apply negb_true_iff, Z.eqb_neq).
  split; [|split; [|split]].
  - unfold findOne, bind, user_findOneOrFail, user_findOne, bind, gets, throw.
    by rewrite Htruthy, Hnone.
  - done.
  - unfold findAll, bind at 1 3, load_viewer, user_findOne, gets, ret.
    by rewrite Htruthy, Hnone.
  - intros Hv Hl Ho.
    destruct (findAll_page (Some id) q s _ Hv (page_of_unbounded q _ Hl Ho))
      as (u & _ & Hrun).
    unfold returned. by rewrite Hrun.
Qed.

Lemma findOne_unknown_viewer_fails_witness :
  findOne (Some 7) (mkWhere (Some "first") None None None) sample_store
    = (Err NotFoundError, sample_store) ∧
  returned (findOne None (mkWhere (Some "first") None None None) sample_store) = true ∧
  @findAll reference_backend (Some 7) ∅ sample_store
    = @findAll reference_backend None ∅ sample_store ∧
  returned (@findAll reference_backend (Some 7) ∅ sample_store) = true.
Proof.
  destruct (@findOne_unknown_viewer_fails reference_backend sample_store 7
              (mkWhere (Some "first") None None None) ∅) as (H1 & H2 & H3 & H4);
    [lia|by vm_compute|].
  split; [exact H1|]. split; [exact H2|]. split; [exact H3|].
  apply H4; by vm_compute.
Defined.

(** ** Comments *)

(** C7. When the article and the viewer exist and the comment with the given
    id is not one of the article's comments, deleteComment raises no error
    and leaves the store as it was: the same comments on the article, and
    the comment, if there is one, still there.  It returns the article's
    view, rendered for a user whose favorites were not loaded. *)
Theorem deleteComment_not_member s userId sl id u aid a :
  users s !! userId = Some u →
  article_by_slug sl s = Some (aid, a) →
  article_comments aid s !! id = None →
  ∃ data, deleteComment userId sl id s = (Ok data, s) ∧
    data_id data = aid ∧ data_slug data = sl ∧ data_favorited data = false.
Proof.
  intros Hu Hfind Hnot.
  unfold deleteComment, bind, article_findOneOrFail_slug, article_findOne_slug,
    user_findOneOrFail, user_findOne, comments_contains, render, bind, gets, ret.
  rewrite Hfind. cbv beta iota zeta. rewrite Hu. cbv beta iota zeta. simpl.
  apply article_by_slug_lookup in Hfind as [_ Hslug].
  unfold article_comments in Hnot. apply map_lookup_filter_None in Hnot.
  destruct (comments s !! id) as [c|] eqn:Hc; [|by eexists].
  destruct Hnot as [?|Hnot]; [done|].
  rewrite bool_decide_eq_false_2 by (by apply (Hnot c)). by eexists.
Qed.

Lemma deleteComment_not_member_witness :
  ∃ data, deleteComment 2 "first" 99 sample_store = (Ok data, sample_store) ∧
    data_id data = 1 ∧ data_slug data = "first" ∧ data_favorited data = false.
Proof.
  apply (deleteComment_not_member sample_store 2 "first" 99 bob 1
           (mkArticle "first" "First" "d1" "b1" ["foo"] 1 100 (Some 2))); by vm_compute.
Defined.

(** ** Creation *)

(** C5. createArticle with a title, description or body that is left out
    or empty throws the validation error, whose message names each missing
    field, and the store is as it was: no article and no tag was written. *)
Theorem create_requires_fields now sl userId dto s :
  missing (dto_title dto) ∨ missing (dto_description dto) ∨ missing (dto_body dto) →
  create now sl userId dto s = (Err (BadRequestException required_message), s) ∧
  ∀ field value,
    (field, value) ∈ [("title", dto_title dto); ("description", dto_description dto);
                      ("body", dto_body dto)] →
    missing value → includes (toLowerCase required_message) field = true.
Proof.
  intros Hmissing. split.
  - assert (∀ o, missing o → JS.truthy_string o = false) as Hfalsy
      by (by intros o [-> | ->]).
    unfold create.
    destruct Hmissing as [Hm|[Hm|Hm]]; rewrite (Hfalsy _ Hm); simpl;
      by rewrite ?orb_true_r.
  - intros field value Hin _.
    repeat (apply elem_of_cons in Hin as [[= -> _]|Hin]; [by vm_compute|]).
    by apply elem_of_nil in Hin.
Qed.

Lemma create_requires_fields_witness :
  create 300 "third-x" 1 (mkDto (Some "") (Some "d") (Some "b") (TagString "foo"))
    sample_store
  = (Err (BadRequestException required_message), sample_store) ∧
  includes (toLowerCase required_message) "title" = true.
Proof.
  pose proof (create_requires_fields 300 "third-x" 1
                (mkDto (Some "") (Some "d") (Some "b") (TagString "foo")) sample_store
                (or_introl (or_intror eq_refl))) as [Hrun Hnames].
  split; [exact Hrun|].
  apply (Hnames "title" (Some "")); [by left|by right].
Defined.

(** [new Set] keeps every value once. *)
Lemma Set_of_from acc l :
  NoDup acc →
  NoDup (fold_left JS.set_add l acc) ∧
  ∀ x, x ∈ fold_left JS.set_add l acc ↔ x ∈ acc ∨ x ∈ l.
Proof.
  revert acc. induction l as [|y l IH]; intros acc Hacc; simpl.
  - split; [done|]. intros x. rewrite elem_of_nil. tauto.
  - assert (NoDup (JS.set_add acc y) ∧ ∀ x, x ∈ JS.set_add acc y ↔ x ∈ acc ∨ x = y)
      as [Hnd Hmem].
    { unfold JS.set_add. case_bool_decide as Hy.
      - split; [done|]. intros x. split; [tauto|]. by intros [?| ->].
      - split.
        + apply NoDup_app. split; [done|]. split; [|apply NoDup_singleton].
          intros x Hx ->%list_elem_of_singleton. done.
        + intros x. by rewrite elem_of_app, list_elem_of_singleton. }
    destruct (IH _ Hnd) as [Hnd' Hmem']. split; [done|].
    intros x. rewrite Hmem', Hmem, elem_of_cons. tauto.
Qed.

Lemma Set_of_NoDup l : NoDup (JS.Set_of l).
Proof. apply (Set_of_from [] l), NoDup_nil_2. Qed.

Lemma elem_of_Set_of l x : x ∈ JS.Set_of l ↔ x ∈ l.
Proof.
  unfold JS.Set_of. rewrite (proj2 (Set_of_from [] l (NoDup_nil_2)) x), elem_of_nil. tauto.
Qed.

(** The next key is not in use. *)
Lemma next_id_fresh {A} (m : gmap Z A) : m !! next_id m = None.
Proof.
  assert (∀ (l : list Z) k, k ∈ l → k ≤ foldr Z.max 0 l) as Hmax.
  { induction l as [|x l IH]; intros k Hk; [by apply elem_of_nil in Hk|].
    simpl. apply elem_of_cons in Hk as [->|Hk]; [lia|]. specialize (IH k Hk). lia. }
  destruct (m !! next_id m) as [v|] eqn:Hk; [|done].
  apply elem_of_map_to_list in Hk.
  assert (next_id m ∈ map fst (map_to_list m)) as Hin
    by (apply list_elem_of_fmap; by exists (next_id m, v)).
  apply Hmax in Hin. unfold next_id in Hin. lia.
Qed.

Lemma insert_missing_subseteq existing names tbl :
  tbl ⊆ insert_missing existing names tbl.
Proof.
  revert tbl. induction names as [|x l IH]; intros tbl; [done|].
  simpl. case_bool_decide; [apply IH|].
  etrans; [|apply IH]. apply insert_subseteq, next_id_fresh.
Qed.

Lemma insert_missing_rows existing names tbl t :
  NoDup names →
  size (filter (named t) (insert_missing existing names tbl))
  = (size (filter (named t) tbl)
     + flag (bool_decide (t ∈ names) && negb (bool_decide (t ∈ existing))))%nat.
Proof.
  intros Hnd. revert tbl. induction Hnd as [|x l Hx Hl IH]; intros tbl.
  - simpl. lia.
  - change (insert_missing existing (x :: l) tbl)
      with (insert_missing existing l
              (if bool_decide (x ∈ existing) then tbl else <[next_id tbl := mkTag x]> tbl)).
    rewrite IH. clear IH.
    assert (bool_decide (t ∈ x :: l) = bool_decide (t = x) || bool_decide (t ∈ l)) as ->.
    { apply eq_true_iff_eq. rewrite orb_true_iff, !bool_decide_eq_true, elem_of_cons. tauto. }
    destruct (decide (t = x)) as [->|Hne].
    + rewrite (bool_decide_eq_true_2 (x = x)) by done.
      rewrite (bool_decide_eq_false_2 (x ∈ l)) by done.
      destruct (bool_decide (x ∈ existing)); simpl; [lia|].
      rewrite map_filter_insert_True by done.
      rewrite map_size_insert_None; [lia|].
      apply map_lookup_filter_None. left. apply next_id_fresh.
    + rewrite (bool_decide_eq_false_2 (t = x)) by done.
      destruct (bool_decide (x ∈ existing)); simpl; [done|].
      rewrite map_filter_insert_not'; [done| |].
      * unfold named. simpl. congruence.
      * intros y Hy. by rewrite next_id_fresh in Hy.
Qed.

(** A name to add is among the names found exactly when it has a row. *)
Lemma existing_names (names : list string) (tbl : gmap Z Tag) (t : string) :
  t ∈ names →
  t ∈ JS.Set_of (map tag (map snd (filter (λ r : Z * Tag, tag r.2 ∈ names) (map_to_list tbl))))
  ↔ size (filter (named t) tbl) ≠ 0%nat.
Proof.
  intros Ht. rewrite elem_of_Set_of, map_size_ne_0_lookup. split.
  - intros (tg & -> & ([k tg'] & -> & Hin)%list_elem_of_fmap)%list_elem_of_fmap.
    apply list_elem_of_filter in Hin as [_ Hin]. apply elem_of_map_to_list in Hin.
    exists k, tg'. by apply map_lookup_filter_Some.
  - intros (k & tg & [Hk Hnamed]%map_lookup_filter_Some). unfold named in Hnamed.
    simpl in Hnamed. subst t.
    apply list_elem_of_fmap. exists tg. split; [done|].
    apply list_elem_of_fmap. exists (k, tg). split; [done|].
    apply list_elem_of_filter. split; [done|]. by apply elem_of_map_to_list.
Qed.

Lemma for_each_insert_missing existing names s :
  for_each names (λ tagName,
    if negb (bool_decide (tagName ∈ existing))
    then persist_tag (mkTag tagName)
    else ret tt) s
  = (Ok tt, set_tags (insert_missing existing names) s).
Proof.
  revert s. induction names as [|x l IH]; intros s.
  - by destruct s.
  - simpl. unfold bind at 1.
    destruct (bool_decide (x ∈ existing)) eqn:Hex; simpl;
      [unfold ret at 1|unfold persist_tag, modify];
      rewrite IH; destruct s; unfold set_tags, insert_missing; simpl;
      by rewrite Hex.
Qed.

(** What trim and split do to a string. *)
Lemma drop_ws_head l c l' : JS.drop_ws l = c :: l' → JS.is_ws c = false.
Proof.
  induction l as [|x l IH]; simpl; [done|].
  destruct (JS.is_ws x) eqn:Hx; [done|]. by intros [= <- _].
Qed.

Lemma drop_ws_suffix l :
  ∃ pre, Forall (λ c, JS.is_ws c = true) pre ∧ l = (pre ++ JS.drop_ws l)%list.
Proof.
  induction l as [|x l (pre & Hpre & IH)]; simpl; [by exists []|].
  destruct (JS.is_ws x) eqn:Hx.
  - exists (x :: pre). split; [by constructor|]. simpl. by rewrite <- IH.
  - by exists [].
Qed.

Lemma trim_chars_trimmed l : trimmed (JS.trim_chars l).
Proof.
  unfold JS.trim_chars. split; intros c l' Heq.
  - destruct (drop_ws_suffix (rev (JS.drop_ws l))) as (pre & _ & Hpre).
    apply (f_equal (@rev ascii)) in Hpre.
    rewrite rev_involutive, rev_app_distr, Heq in Hpre. simpl in Hpre.
    by apply (drop_ws_head l c (l' ++ rev pre)%list).
  - apply (f_equal (@rev ascii)) in Heq.
    rewrite rev_involutive, rev_app_distr in Heq. simpl in Heq.
    by apply (drop_ws_head (rev (JS.drop_ws l)) c (rev l')).
Qed.

(** trim takes white space off both ends of a string, and all of it. *)
Lemma trim_spec x :
  ∃ pre post,
    Forall (λ c, JS.is_ws c = true) pre ∧ Forall (λ c, JS.is_ws c = true) post ∧
    list_ascii_of_string x = (pre ++ list_ascii_of_string (JS.trim x) ++ post)%list ∧
    trimmed (list_ascii_of_string (JS.trim x)).
Proof.
  unfold JS.trim. rewrite list_ascii_of_string_of_list_ascii.
  set (l := list_ascii_of_string x).
  destruct (drop_ws_suffix l) as (pre & Hpre & Hl).
  destruct (drop_ws_suffix (rev (JS.drop_ws l))) as (pre' & Hpre' & Hr).
  exists pre, (rev pre'). split; [done|]. split; [by apply Forall_rev|].
  split; [|apply trim_chars_trimmed].
  unfold JS.trim_chars. rewrite <- rev_app_distr, <- Hr, rev_involutive. exact Hl.
Qed.

Lemma split_from_nonempty sep cur s : ∃ p rest, JS.split_from sep cur s = p :: rest.
Proof.
  revert cur. induction s as [|c s IH]; intros cur; simpl; [by eexists _, _|].
  destruct (Ascii.eqb c sep); [by eexists _, _|apply IH].
Qed.

Lemma append_cons c (s t : string) : (String c s ++ t)%string = String c (s ++ t).
Proof. reflexivity. Qed.

Lemma append_empty_r (s : string) : (s ++ "")%string = s.
Proof. induction s as [|c s IH]; [done|]. by rewrite append_cons, IH. Qed.

Lemma string_of_snoc l c (s : string) :
  (string_of_list_ascii (l ++ [c]) ++ s)%string = (string_of_list_ascii l ++ String c s)%string.
Proof. induction l as [|x l IH]; [done|]. simpl. by rewrite !append_cons, IH. Qed.

(** The pieces of a split, joined by the separator, are the string. *)
Lemma split_from_concat sep cur s :
  String.concat (String sep "") (JS.split_from sep cur s)
  = (string_of_list_ascii (rev cur) ++ s)%string.
Proof.
  revert cur. induction s as [|c s IH]; intros cur; simpl.
  - by rewrite append_empty_r.
  - destruct (Ascii.eqb c sep) eqn:Hc.
    + apply Ascii.eqb_eq in Hc as ->.
      destruct (split_from_nonempty sep [] s) as (p & rest & Hs).
      specialize (IH []). rewrite Hs in IH |- *.
      change (String.concat (String sep "") (string_of_list_ascii (rev cur) :: p :: rest))
        with (string_of_list_ascii (rev cur)
              ++ String sep "" ++ String.concat (String sep "") (p :: rest))%string.
      by rewrite IH.
    + rewrite IH. simpl. apply string_of_snoc.
Qed.

(** No piece of a split holds the separator. *)
Lemma split_from_no_sep sep cur s p :
  sep ∉ cur → p ∈ JS.split_from sep cur s → sep ∉ list_ascii_of_string p.
Proof.
  assert (∀ cur, sep ∉ cur → sep ∉ list_ascii_of_string (string_of_list_ascii (rev cur)))
    as Hcur.
  { intros cur' Hno. rewrite list_ascii_of_string_of_list_ascii.
    by rewrite list_elem_of_In, <- in_rev, <- list_elem_of_In. }
  revert cur. induction s as [|c s IH]; intros cur Hno; simpl.
  - intros ->%list_elem_of_singleton. by apply Hcur.
  - destruct (Ascii.eqb c sep) eqn:Hc.
    + intros [->|Hin]%elem_of_cons; [by apply Hcur|].
      apply (IH []); [by intros ?%elem_of_nil|done].
    + apply IH. intros [->|?]%elem_of_cons; [|done]. by rewrite Ascii.eqb_refl in Hc.
Qed.

(** C6. createArticle turns the tagList into tag names, each kept once,
    and stores them on the article.  For a list of strings the names are
    its elements, trimmed; for a string they are its pieces between commas,
    trimmed; for anything else there is none; trimming takes the white
    space off both ends of a string, all of it and nothing else.  The Tag table keeps every row it had; a name
    among them with no row gets exactly one, a name with rows gets none,
    and other names are not touched.  With "foo, bar, foo", as with the
    list of " foo", "bar " and "foo", the names are foo and bar, and when
    neither had more than one row before, each has exactly one row
    afterwards, whether or not foo was there already. *)
Theorem create_normalizes_tags now sl userId dto s u :
  users s !! userId = Some u →
  JS.truthy_string (dto_title dto) = true →
  JS.truthy_string (dto_description dto) = true →
  JS.truthy_string (dto_body dto) = true →
  ∃ data s',
    create now sl userId dto s = (Ok data, s') ∧
    NoDup (processTags (dto_tagList dto)) ∧
    (∀ l, dto_tagList dto = TagArray l →
       ∀ t, t ∈ processTags (dto_tagList dto) ↔ ∃ x, x ∈ l ∧ t = JS.trim x) ∧
    (∀ str, dto_tagList dto = TagString str →
       String.concat "," (JS.split "," str) = str ∧
       (∀ p, p ∈ JS.split "," str → ","%char ∉ list_ascii_of_string p) ∧
       ∀ t, t ∈ processTags (dto_tagList dto) ↔ ∃ p, p ∈ JS.split "," str ∧ t = JS.trim p) ∧
    (dto_tagList dto = TagOther → processTags (dto_tagList dto) = []) ∧
    (∀ x, ∃ pre post,
       Forall (λ c, JS.is_ws c = true) pre ∧ Forall (λ c, JS.is_ws c = true) post ∧
       list_ascii_of_string x = (pre ++ list_ascii_of_string (JS.trim x) ++ post)%list ∧
       trimmed (list_ascii_of_string (JS.trim x))) ∧
    data_tagList data = processTags (dto_tagList dto) ∧
    tagList <$> articles s' !! data_id data = Some (processTags (dto_tagList dto)) ∧
    tags s ⊆ tags s' ∧
    (∀ t, tag_rows t s' = if bool_decide (t ∈ processTags (dto_tagList dto))
                          then Nat.max 1 (tag_rows t s) else tag_rows t s) ∧
    (dto_tagList dto = TagString "foo, bar, foo"
     ∨ dto_tagList dto = TagArray [" foo"; "bar "; "foo"] →
     (tag_rows "foo" s ≤ 1)%nat → (tag_rows "bar" s ≤ 1)%nat →
     processTags (dto_tagList dto) = ["foo"; "bar"] ∧
     tag_rows "foo" s' = 1%nat ∧ tag_rows "bar" s' = 1%nat).
Proof.
  intros Hu Ht Hd Hb.
  unfold create. rewrite Ht, Hd, Hb.
  change (negb true || negb true || negb true) with false. cbv beta iota zeta.
  unfold bind at 1. unfold user_findOne, gets. rewrite Hu. cbv beta iota zeta.
  unfold bind at 1, transactional. unfold bind at 1, persist_article. cbv beta iota zeta.
  unfold bind at 1, tag_find, gets. cbv beta iota zeta. unfold bind at 1.
  rewrite for_each_insert_missing. cbv beta iota zeta. unfold ret at 1. unfold render, gets.
  set (names := processTags (dto_tagList dto)).
  set (article := set_tagList _ _).
  set (s1 := set_articles _ s).
  set (existing := JS.Set_of _).
  eexists _, _. split; [reflexivity|].
  assert (NoDup names) as Hnd by apply Set_of_NoDup.
  assert (∀ t, tag_rows t (set_tags (insert_missing existing names) s1)
               = if bool_decide (t ∈ names) then Nat.max 1 (tag_rows t s) else tag_rows t s)
    as Hrows.
  { intros t. unfold tag_rows.
    change (tags (set_tags (insert_missing existing names) s1))
      with (insert_missing existing names (tags s)).
    rewrite insert_missing_rows by done.
    destruct (bool_decide (t ∈ names)) eqn:Hin; simpl; [|lia].
    apply bool_decide_eq_true in Hin.
    pose proof (existing_names names (tags s) t Hin) as Hex.
    change (JS.Set_of _) with existing in Hex.
    destruct (bool_decide (t ∈ existing)) eqn:Hmem; simpl.
    - apply bool_decide_eq_true in Hmem. apply Hex in Hmem. lia.
    - apply bool_decide_eq_false in Hmem.
      destruct (decide (size (filter (named t) (tags s)) = 0%nat)) as [->|Hne]; [done|].
      by apply Hex in Hne. }
  split; [done|]. split.
  { intros l Htl t. unfold names, processTags. rewrite Htl, elem_of_Set_of. simpl.
    rewrite list_elem_of_fmap. split; intros (x & ? & ?); by exists x. }
  split.
  { intros str Htl. split; [apply (split_from_concat "," [] str)|]. split.
    - intros p. apply split_from_no_sep. by intros ?%elem_of_nil.
    - intros t. unfold names, processTags. rewrite Htl, elem_of_Set_of. simpl.
      rewrite list_elem_of_fmap. split; intros (x & ? & ?); by exists x. }
  split; [unfold names; by intros ->|].
  split; [apply trim_spec|].
  split; [done|]. split; [simpl; by rewrite lookup_insert_eq|].
  split; [apply insert_missing_subseteq|]. split; [done|].
  intros Htl Hfoo Hbar.
  assert (names = ["foo"; "bar"]) as Hnames
    by (unfold names; destruct Htl as [-> | ->]; by vm_compute).
  split; [done|]. rewrite !Hrows, Hnames.
  change (bool_decide ("foo" ∈ ["foo"; "bar"])) with true.
  change (bool_decide ("bar" ∈ ["foo"; "bar"])) with true.
  cbv beta iota. lia.
Qed.

Lemma create_normalizes_tags_witness :
  ∃ data s',
    create 300 "third-x" 1
      (mkDto (Some "Third") (Some "d") (Some "b") (TagString "foo, bar, foo")) sample_store
      = (Ok data, s') ∧
    data_tagList data = ["foo"; "bar"] ∧
    tag_rows "foo" sample_store = 1%nat ∧
    tag_rows "foo" s' = 1%nat ∧ tag_rows "bar" s' = 1%nat.
Proof.
  destruct (create_normalizes_tags 300 "third-x" 1
              (mkDto (Some "Third") (Some "d") (Some "b") (TagString "foo, bar, foo"))
              sample_store alice eq_refl eq_refl eq_refl eq_refl)
    as (data & s' & Hrun & _ & _ & _ & _ & _ & Hdata & _ & _ & _ & Hex).
  destruct (Hex (or_introl eq_refl)) as (Hnames & Hfoo & Hbar);
    [vm_compute; lia|vm_compute; lia|].
  exists data, s'. split; [exact Hrun|]. split; [by rewrite Hdata|].
  split; [by vm_compute|]. by split.
Defined.

(** ** The model on concrete inputs *)

Example trim_ex : JS.trim "  foo bar " = "foo bar".
Proof. reflexivity. Qed.

Example split_ex : JS.split "," "foo, bar, foo" = ["foo"; " bar"; " foo"].
Proof. reflexivity. Qed.

Example split_empty_ex : JS.split "," "" = [""].
Proof. reflexivity. Qed.

Example processTags_ex :
  processTags (TagString "foo, bar, foo") = ["foo"; "bar"] ∧
  processTags (TagArray [" a"; "b "; "a"]) = ["a"; "b"] ∧
  processTags TagOther = [].
Proof. by vm_compute. Qed.

Example StringToNumber_ex :
  map JS.StringToNumber
    ["2"; " 10 "; ""; "-7"; "0x1F"; "abc"; "1.5"; "12px"; "."; "-Infinity"; "0"; "-1"]
  = [JS.JInt 2; JS.JInt 10; JS.JInt 0; JS.JInt (-7); JS.JInt 31; JS.JNaN; JS.JOther;
     JS.JNaN; JS.JNaN; JS.JOther; JS.JInt 0; JS.JInt (-1)].
Proof. by vm_compute. Qed.

(** A number is its value, however it is written: with a fraction or an
    exponent it is an integer when its value is one. *)
Example StringToNumber_value_ex :
  map JS.StringToNumber
    ["2.0"; "1e0"; "1e3"; "5."; "1.50e1"; "100e-2"; "-2.0"; "0.0"; ".5"; "1e-1"; "1e";
     "1e400"; "0.25e1"; "9007199254740991"; "9007199254740993"]
  = [JS.JInt 2; JS.JInt 1; JS.JInt 1000; JS.JInt 5; JS.JInt 15; JS.JInt 1; JS.JInt (-2);
     JS.JInt 0; JS.JOther; JS.JOther; JS.JNaN; JS.JOther; JS.JOther;
     JS.JInt 9007199254740991; JS.JOther].
Proof. by vm_compute. Qed.

(** Five matches, newest first; limit 2 and offset 0 give the two newest
    and a count of five, and an offset moves the page, not the count. *)
Example findAll_page_ex :
  listing (@findAll reference_backend None ∅ five_articles) = Some ([5; 4; 3; 2; 1], 5) ∧
  listing (@findAll reference_backend None {["limit" := "2"; "offset" := "0"]} five_articles)
    = Some ([5; 4], 5) ∧
  listing (@findAll reference_backend None {["limit" := "2"; "offset" := "3"]} five_articles)
    = Some ([2; 1], 5).
Proof. by vm_compute. Qed.

Example findFeed_ex :
  listing (@findFeed reference_backend (Some 1) ∅ sample_store) = Some ([1], 1) ∧
  listing (@findFeed reference_backend (Some 2) ∅ sample_store) = Some ([], 0) ∧
  listing (@findFeed reference_backend (Some 1) {["offset" := "-1"]} sample_store) = None.
Proof. by vm_compute. Qed.

(** A pattern that is no regular expression, and a negative offset. *)
Example findAll_throws_ex :
  (@findAll reference_backend None {["tag" := "("]} sample_store).1 = Err SyntaxError ∧
  (@findAll reference_backend None {["tag" := "("; "author" := "carol"]} sample_store).1
    = Err SyntaxError ∧
  (@findAll reference_backend None {["offset" := "-1"]} sample_store).1 = Err QueryError ∧
  listing (@findAll reference_backend None {["offset" := "-1"; "author" := "carol"]}
             sample_store) = Some ([], 0) ∧
  listing (@findAll reference_backend None {["limit" := "2.0"; "offset" := "1e0"]}
             five_articles) = Some ([4; 3], 5).
Proof. by vm_compute. Qed.

(** Favoriting twice counts once. *)
Example favorite_twice_ex :
  stored_count "second" sample_store = Some 0 ∧
  stored_count "second" (favorite 1 "second" (favorite 1 "second" sample_store).2).2 = Some 1.
Proof. by vm_compute. Qed.

(** A comment of the article is removed; a comment of another article is
    not. *)
Example deleteComment_ex :
  dom (comments (deleteComment 1 "first" 1 sample_store).2) = {[2]} ∧
  dom (comments (deleteComment 1 "first" 2 sample_store).2) = {[1; 2]}.
Proof. by vm_compute. Qed.

(** * More of the service *)

(** ** What the calls come to on a store *)

Lemma article_by_slug_None sl s :
  article_by_slug sl s = None ↔ ∀ k a, articles s !! k = Some a → slug a ≠ sl.
Proof.
  unfold article_by_slug. rewrite first_row_None. simpl.
  split; intros Hno k a Hk; specialize (Hno k a Hk).
  - by apply bool_decide_eq_false in Hno.
  - by apply bool_decide_eq_false.
Qed.

Lemma deleteComment_run s userId sl id :
  deleteComment userId sl id s =
  match article_by_slug sl s with
  | None => (Err NotFoundError, s)
  | Some (aid, a) =>
      match users s !! userId with
      | None => (Err NotFoundError, s)
      | Some u =>
          let s' := if bool_decide (is_Some (article_comments aid s !! id))
                    then set_comments (delete id) s else s in
          (Ok (Article_toJSON s' (Some (unpopulated u)) (aid, a)), s')
      end
  end.
Proof.
  unfold deleteComment, bind, article_findOneOrFail_slug, article_findOne_slug,
    user_findOneOrFail, user_findOne, comments_contains, render, modify, bind, gets,
    ret, throw.
  destruct (article_by_slug sl s) as [[aid a]|]; cbv beta iota zeta; [|done].
  destruct (users s !! userId) as [u|]; cbv beta iota zeta; [|done].
  assert (bool_decide (is_Some (article_comments aid s !! id))
          = match comments s !! id with
            | Some c => bool_decide (comment_article c = aid)
            | None => false
            end) as ->.
  { unfold article_comments. destruct (comments s !! id) as [c|] eqn:Hc.
    - apply bool_decide_ext. split.
      + intros [c' [Hc' Hin]%map_lookup_filter_Some]. simpl in Hin. congruence.
      + intros Heq. exists c. by apply map_lookup_filter_Some.
    - apply bool_decide_eq_false_2.
      intros [c' [Hc' _]%map_lookup_filter_Some]. congruence. }
  simpl. destruct (comments s !! id) as [c|]; [|done].
  by destruct (bool_decide (comment_article c = aid)).
Qed.

Lemma addComment_run s userId sl dto :
  addComment userId sl dto s =
  match article_by_slug sl s with
  | None => (Err NotFoundError, s)
  | Some (aid, a) =>
      match users s !! userId with
      | None => (Err NotFoundError, s)
      | Some u =>
          let c := new_Comment userId aid (dto_comment_body dto) in
          let id := next_id (comments s) in
          let s' := set_comments <[id := c]> s in
          (Ok (id, c, Article_toJSON s' (Some (unpopulated u)) (aid, a)), s')
      end
  end.
Proof.
  unfold addComment, bind, article_findOneOrFail_slug, article_findOne_slug,
    user_findOneOrFail, user_findOne, persist_comment, render, bind, gets, ret, throw.
  destruct (article_by_slug sl s) as [[aid a]|]; cbv beta iota zeta; [|done].
  by destruct (users s !! userId) as [u|].
Qed.

(** ** Missing articles and missing users *)

Lemma set_favorites_nothing (m : gmap Z User) :
  set_favorites (λ f, f ∖ ∅) <$> m = m.
Proof.
  apply map_eq. intros i. rewrite lookup_fmap.
  destruct (m !! i) as [[n fo fa]|]; [|done]. simpl. unfold set_favorites. simpl.
  by rewrite difference_empty_L.
Qed.

Lemma delete_missing sl s :
  (∀ k a, articles s !! k = Some a → slug a ≠ sl) →
  ArticleService.delete sl s = (Ok 0, s).
Proof.
  intros Hno. unfold ArticleService.delete. cbv zeta.
  assert (filter (has_slug sl) (articles s) = ∅) as ->.
  { apply map_empty_filter. intros k a Hk Hs. by apply (Hno k a Hk). }
  assert (filter (λ r, ¬ has_slug sl r) (articles s) = articles s) as Hall.
  { apply map_filter_id. intros k a Hk Hs. by apply (Hno k a Hk). }
  destruct (decide (comments_of ∅ s = ∅)) as [_|Hne].
  - rewrite map_size_empty, dom_empty_L. unfold set_articles, set_users. simpl.
    rewrite Hall, set_favorites_nothing. by destruct s.
  - exfalso. apply Hne. apply map_empty_filter. intros k c Hk [x Hx].
    by rewrite lookup_empty in Hx.
Qed.

(** X1. For a slug that no article has, every call that addresses an
    article by slug leaves the store as it was, but they do not agree on
    the outcome: findOne returns a null article, delete returns 0,
    favorite, unFavorite, addComment and deleteComment throw NotFound, and
    findComments and update throw a TypeError. *)
Theorem no_article_with_slug s sl userId id cid dto p :
  (∀ k a, articles s !! k = Some a → slug a ≠ sl) →
  findOne None (mkWhere (Some sl) None None None) s = (Ok None, s) ∧
  ArticleService.delete sl s = (Ok 0, s) ∧
  favorite id sl s = (Err NotFoundError, s) ∧
  unFavorite id sl s = (Err NotFoundError, s) ∧
  addComment id sl dto s = (Err NotFoundError, s) ∧
  deleteComment id sl cid s = (Err NotFoundError, s) ∧
  findComments sl s = (TypeError, s) ∧
  update userId sl p s = (TypeError, s).
Proof.
  intros Hno. pose proof (proj2 (article_by_slug_None sl s) Hno) as Hnone.
  split; [|split; [|repeat split]].
  - set (w := mkWhere (Some sl) None None None).
    assert (first_row
              (λ r : Z * Article,
                 matches_opt (where_slug w) (slug r.2) && matches_opt (where_title w) (title r.2)
                 && matches_opt (where_description w) (description r.2)
                 && matches_opt (where_body w) (body r.2))
              (articles s) = None) as Hw.
    { apply first_row_None. intros k a Hk. simpl. rewrite !andb_true_r.
      apply bool_decide_eq_false. intros Heq. by apply (Hno k a Hk). }
    unfold findOne, bind, article_findOne, gets, ret. by rewrite Hw.
  - by apply delete_missing.
  - by rewrite favorite_run, Hnone.
  - by rewrite unFavorite_run, Hnone.
  - by rewrite addComment_run, Hnone.
  - by rewrite deleteComment_run, Hnone.
  - unfold findComments. by rewrite Hnone.
  - unfold update. by rewrite Hnone.
Qed.

Lemma no_article_with_slug_witness :
  findOne None (mkWhere (Some "third") None None None) sample_store = (Ok None, sample_store) ∧
  ArticleService.delete "third" sample_store = (Ok 0, sample_store) ∧
  favorite 1 "third" sample_store = (Err NotFoundError, sample_store) ∧
  unFavorite 1 "third" sample_store = (Err NotFoundError, sample_store) ∧
  addComment 1 "third" (mkCommentDto "hi") sample_store = (Err NotFoundError, sample_store) ∧
  deleteComment 1 "third" 1 sample_store = (Err NotFoundError, sample_store) ∧
  findComments "third" sample_store = (TypeError, sample_store) ∧
  update 1 "third" (mkPatch None (Some "T") None None None None None None) sample_store
    = (TypeError, sample_store).
Proof.
  apply (no_article_with_slug sample_store "third" 1 1 1).
  apply (article_by_slug_None "third" sample_store). by vm_compute.
Defined.

(** X2. When the article exists and the user does not, favorite,
    unFavorite, addComment and deleteComment throw NotFound and leave the
    store as it was. *)
Theorem unknown_user_NotFound s sl id cid dto aid a :
  article_by_slug sl s = Some (aid, a) →
  users s !! id = None →
  favorite id sl s = (Err NotFoundError, s) ∧
  unFavorite id sl s = (Err NotFoundError, s) ∧
  addComment id sl dto s = (Err NotFoundError, s) ∧
  deleteComment id sl cid s = (Err NotFoundError, s).
Proof.
  intros Hfind Hnone.
  rewrite favorite_run, unFavorite_run, addComment_run, deleteComment_run.
  by rewrite Hfind, Hnone.
Qed.

Lemma unknown_user_NotFound_witness :
  favorite 7 "first" sample_store = (Err NotFoundError, sample_store) ∧
  unFavorite 7 "first" sample_store = (Err NotFoundError, sample_store) ∧
  addComment 7 "first" (mkCommentDto "hi") sample_store = (Err NotFoundError, sample_store) ∧
  deleteComment 7 "first" 1 sample_store = (Err NotFoundError, sample_store).
Proof.
  apply (unknown_user_NotFound sample_store "first" 7 1 (mkCommentDto "hi") 1
           (mkArticle "first" "First" "d1" "b1" ["foo"] 1 100 (Some 2)));
    by vm_compute.
Defined.

(** ** Favorites *)

Lemma written_back s id u aid a :
  let s1 := set_articles <[aid := a]> (set_users <[id := u]> s) in
  users s1 !! id = Some u ∧ articles s1 !! aid = Some a.
Proof. simpl. by rewrite !lookup_insert_eq. Qed.

(** After a call that wrote the user and the article back, a call that
    changes neither returns the same view on the same store. *)
Lemma flush_again s id u aid a :
  let s1 := set_articles <[aid := a]> (set_users <[id := u]> s) in
  set_articles <[aid := a]> (set_users <[id := u]> s1) = s1.
Proof.
  intros s1. destruct (written_back s id u aid a) as [Hu Ha].
  by apply flush_unchanged.
Qed.

(** X3. favorite and unFavorite are idempotent: a second call with the same
    user and slug returns what the first returned and leaves the store the
    first left, so favoriting twice counts once. *)
Theorem favorite_unFavorite_idempotent s id sl :
  favorite id sl (favorite id sl s).2 = favorite id sl s ∧
  unFavorite id sl (unFavorite id sl s).2 = unFavorite id sl s.
Proof.
  split.
  - rewrite (favorite_run s).
    destruct (article_by_slug sl s) as [[aid a]|] eqn:Hfind;
      [|simpl; by rewrite favorite_run, Hfind].
    destruct (users s !! id) as [u|] eqn:Hu;
      [|simpl; by rewrite favorite_run, Hfind, Hu].
    assert (∀ u1 a1, slug a1 = slug a → aid ∈ favorites u1 →
      let s1 := set_articles <[aid := a1]> (set_users <[id := u1]> s) in
      favorite id sl s1 = (Ok (Article_toJSON s1 (Some u1) (aid, a1)), s1)) as Hsecond.
    { intros u1 a1 Hslug Hin. cbv zeta. rewrite favorite_run.
      rewrite (article_by_slug_update sl s aid a a1 _ Hfind Hslug).
      change (users (set_articles <[aid := a1]> (set_users <[id := u1]> s)) !! id)
        with (<[id := u1]> (users s) !! id).
      rewrite lookup_insert_eq, (bool_decide_eq_true_2 _ Hin). cbv beta iota zeta.
      by rewrite (flush_again s id u1 aid a1). }
    destruct (bool_decide (aid ∈ favorites u)) eqn:Hmem; cbv beta iota zeta.
    + apply bool_decide_eq_true in Hmem. by apply Hsecond.
    + apply Hsecond; [done|]. simpl. apply favorites_add_self.
  - rewrite (unFavorite_run s).
    destruct (article_by_slug sl s) as [[aid a]|] eqn:Hfind;
      [|simpl; by rewrite unFavorite_run, Hfind].
    destruct (users s !! id) as [u|] eqn:Hu;
      [|simpl; by rewrite unFavorite_run, Hfind, Hu].
    assert (∀ u1 a1, slug a1 = slug a → aid ∉ favorites u1 →
      let s1 := set_articles <[aid := a1]> (set_users <[id := u1]> s) in
      unFavorite id sl s1 = (Ok (Article_toJSON s1 (Some u1) (aid, a1)), s1)) as Hsecond.
    { intros u1 a1 Hslug Hin. cbv zeta. rewrite unFavorite_run.
      rewrite (article_by_slug_update sl s aid a a1 _ Hfind Hslug).
      change (users (set_articles <[aid := a1]> (set_users <[id := u1]> s)) !! id)
        with (<[id := u1]> (users s) !! id).
      rewrite lookup_insert_eq, (bool_decide_eq_false_2 _ Hin). cbv beta iota zeta.
      by rewrite (flush_again s id u1 aid a1). }
    destruct (bool_decide (aid ∈ favorites u)) eqn:Hmem; cbv beta iota zeta.
    + apply Hsecond; [done|]. simpl. apply favorites_remove_self.
    + apply bool_decide_eq_false in Hmem. by apply Hsecond.
Qed.

(** X4. The guards: favorite by a user who holds the article already, and
    unFavorite by a user who does not hold it, return the article's view
    and change nothing; no counter is moved. *)
Theorem favorite_unFavorite_guarded s id sl u aid a :
  users s !! id = Some u →
  article_by_slug sl s = Some (aid, a) →
  (aid ∈ favorites u →
   favorite id sl s = (Ok (Article_toJSON s (Some u) (aid, a)), s)) ∧
  (aid ∉ favorites u →
   unFavorite id sl s = (Ok (Article_toJSON s (Some u) (aid, a)), s)).
Proof.
  intros Hu Hfind. destruct (article_by_slug_lookup _ _ _ _ Hfind) as [Ha _].
  split; intros Hin.
  - rewrite favorite_run, Hfind, Hu, (bool_decide_eq_true_2 _ Hin). cbv beta iota zeta.
    by rewrite (flush_unchanged s id u aid a Hu Ha).
  - rewrite unFavorite_run, Hfind, Hu, (bool_decide_eq_false_2 _ Hin). cbv beta iota zeta.
    by rewrite (flush_unchanged s id u aid a Hu Ha).
Qed.

Lemma favorite_unFavorite_guarded_witness :
  favorite 2 "first" sample_store
    = (Ok (Article_toJSON sample_store (Some bob)
             (1, mkArticle "first" "First" "d1" "b1" ["foo"] 1 100 (Some 2))), sample_store) ∧
  unFavorite 1 "first" sample_store
    = (Ok (Article_toJSON sample_store (Some alice)
             (1, mkArticle "first" "First" "d1" "b1" ["foo"] 1 100 (Some 2))), sample_store).
Proof.
  split.
  - apply (proj1 (favorite_unFavorite_guarded sample_store 2 "first" bob 1 _ eq_refl eq_refl)).
    by vm_compute.
  - apply (proj2 (favorite_unFavorite_guarded sample_store 1 "first" alice 1 _ eq_refl eq_refl)).
    by vm_compute.
Defined.

Lemma set_favoritesCount_back f a :
  set_favoritesCount (λ _, favoritesCount a) (set_favoritesCount f a) = a.
Proof. by destruct a. Qed.

Lemma set_favoritesCount_same a : set_favoritesCount (λ _, favoritesCount a) a = a.
Proof. by destruct a. Qed.

(** X5. A completed favorite leaves the user holding the article and says
    so in the view; the counter is one up when the user did not hold it
    before and as it was otherwise.  Nothing else is touched: the user's
    name and followers, the article's other columns, the other users and
    articles, the comments and the tags. *)
Theorem favorite_effect s id sl data s' :
  favorite id sl s = (Ok data, s') →
  ∃ aid a u,
    article_by_slug sl s = Some (aid, a) ∧ users s !! id = Some u ∧
    data_id data = aid ∧ data_favorited data = true ∧
    data_favoritesCount data
      = favoritesCount a + (if bool_decide (aid ∈ favorites u) then 0 else 1) ∧
    (∃ u', users s' !! id = Some u' ∧ username u' = username u ∧
           followers u' = followers u ∧
           ∀ x, x ∈ favorites u' ↔ x ∈ favorites u ∨ x = aid) ∧
    (∃ a', articles s' !! aid = Some a' ∧
           favoritesCount a' = data_favoritesCount data ∧
           set_favoritesCount (λ _, favoritesCount a) a' = a) ∧
    (∀ j, j ≠ id → users s' !! j = users s !! j) ∧
    (∀ k, k ≠ aid → articles s' !! k = articles s !! k) ∧
    comments s' = comments s ∧ tags s' = tags s.
Proof.
  rewrite favorite_run.
  destruct (article_by_slug sl s) as [[aid a]|] eqn:Hfind; [|done].
  destruct (users s !! id) as [u|] eqn:Hu; [|done].
  destruct (bool_decide (aid ∈ favorites u)) eqn:Hmem; cbv beta iota zeta;
    intros [= <- <-]; exists aid, a, u; simpl;
    (split; [done|]); (split; [done|]); (split; [done|]).
  - rewrite Hmem. apply bool_decide_eq_true in Hmem.
    split; [done|]. split; [lia|]. split; [|split; [|split; [|split]]].
    + exists u. rewrite lookup_insert_eq. repeat split; try done.
      * tauto.
      * by intros [?| ->].
    + exists a. rewrite lookup_insert_eq. split; [done|]. split; [lia|].
      apply set_favoritesCount_same.
    + intros j Hj. by rewrite lookup_insert_ne.
    + intros k Hk. by rewrite lookup_insert_ne.
    + done.
  - rewrite Hmem.
    rewrite (bool_decide_eq_true_2 (aid ∈ favorites u ∪ {[aid]}) (favorites_add_self _ _)).
    split; [done|]. split; [done|]. split; [|split; [|split; [|split]]].
    + eexists. rewrite lookup_insert_eq. split; [done|]. split; [done|]. split; [done|].
      intros x. simpl. by rewrite elem_of_union, elem_of_singleton.
    + eexists. rewrite lookup_insert_eq. split; [done|]. split; [done|].
      apply set_favoritesCount_back.
    + intros j Hj. by rewrite lookup_insert_ne.
    + intros k Hk. by rewrite lookup_insert_ne.
    + done.
Qed.

Lemma favorite_effect_witness :
  ∃ aid a u,
    article_by_slug "second" sample_store = Some (aid, a) ∧
    users sample_store !! 1 = Some u ∧
    stored_count "second" (favorite 1 "second" sample_store).2 = Some (favoritesCount a + 1).
Proof.
  destruct (favorite_effect sample_store 1 "second" _ _ eq_refl)
    as (aid & a & u & Hfind & Hu & _).
  exists aid, a, u. split; [done|]. split; [done|].
  injection Hfind as <- <-. by vm_compute.
Defined.

(** X6. A completed unFavorite leaves the user without the article and says
    so in the view; the counter is one down when the user held it before
    and as it was otherwise, and nothing else is touched. *)
Theorem unFavorite_effect s id sl data s' :
  unFavorite id sl s = (Ok data, s') →
  ∃ aid a u,
    article_by_slug sl s = Some (aid, a) ∧ users s !! id = Some u ∧
    data_id data = aid ∧ data_favorited data = false ∧
    data_favoritesCount data
      = favoritesCount a - (if bool_decide (aid ∈ favorites u) then 1 else 0) ∧
    (∃ u', users s' !! id = Some u' ∧ username u' = username u ∧
           followers u' = followers u ∧
           ∀ x, x ∈ favorites u' ↔ x ∈ favorites u ∧ x ≠ aid) ∧
    (∃ a', articles s' !! aid = Some a' ∧
           favoritesCount a' = data_favoritesCount data ∧
           set_favoritesCount (λ _, favoritesCount a) a' = a) ∧
    (∀ j, j ≠ id → users s' !! j = users s !! j) ∧
    (∀ k, k ≠ aid → articles s' !! k = articles s !! k) ∧
    comments s' = comments s ∧ tags s' = tags s.
Proof.
  rewrite unFavorite_run.
  destruct (article_by_slug sl s) as [[aid a]|] eqn:Hfind; [|done].
  destruct (users s !! id) as [u|] eqn:Hu; [|done].
  destruct (bool_decide (aid ∈ favorites u)) eqn:Hmem; cbv beta iota zeta;
    intros [= <- <-]; exists aid, a, u; simpl;
    (split; [done|]); (split; [done|]); (split; [done|]).
  - rewrite Hmem.
    rewrite (bool_decide_eq_false_2 (aid ∈ favorites u ∖ {[aid]}) (favorites_remove_self _ _)).
    split; [done|]. split; [done|]. split; [|split; [|split; [|split]]].
    + eexists. rewrite lookup_insert_eq. split; [done|]. split; [done|]. split; [done|].
      intros x. simpl. by rewrite elem_of_difference, elem_of_singleton.
    + eexists. rewrite lookup_insert_eq. split; [done|]. split; [done|].
      apply set_favoritesCount_back.
    + intros j Hj. by rewrite lookup_insert_ne.
    + intros k Hk. by rewrite lookup_insert_ne.
    + done.
  - rewrite Hmem. apply bool_decide_eq_false in Hmem.
    split; [done|]. split; [lia|]. split; [|split; [|split; [|split]]].
    + exists u. rewrite lookup_insert_eq. split; [done|]. split; [done|]. split; [done|].
      intros x. split; [|tauto]. intros Hx. split; [done|]. by intros ->.
    + exists a. rewrite lookup_insert_eq. split; [done|]. split; [lia|].
      apply set_favoritesCount_same.
    + intros j Hj. by rewrite lookup_insert_ne.
    + intros k Hk. by rewrite lookup_insert_ne.
    + done.
Qed.

Lemma unFavorite_effect_witness :
  ∃ aid a u,
    article_by_slug "first" sample_store = Some (aid, a) ∧
    users sample_store !! 2 = Some u ∧
    stored_count "first" (unFavorite 2 "first" sample_store).2 = Some (favoritesCount a - 1).
Proof.
  destruct (unFavorite_effect sample_store 2 "first" _ _ eq_refl)
    as (aid & a & u & Hfind & Hu & _).
  exists aid, a, u. split; [done|]. split; [done|].
  injection Hfind as <- <-. by vm_compute.
Defined.

(** ** Listings and the feed *)

Section more_listings.
Context `{QueryBackend}.

(** X7. With a tag pattern that is a regular expression, if there is one,
    a filter by an author or by a favoriting user whose name no user has
    gives the empty listing with count 0, and no error, whatever the page
    bounds are. *)
Theorem findAll_unknown_user_filter userId q s key name :
  tag_valid q = true →
  key = "author" ∨ key = "favorited" →
  q !! key = Some name →
  (∀ id u, users s !! id = Some u → username u ≠ name) →
  findAll userId q s = (Ok no_articles, s).
Proof.
  intros Hv Hkey Hq Hno.
  destruct (findAll_run userId q s) as (u & _ & ->). rewrite Hv.
  pose proof (listing_builder_spec q s) as Hqb.
  destruct (listing_builder q s) as [qb|]; [|done].
  destruct Hqb as (_ & _ & _ & Hres & _).
  destruct (Hres key name Hkey Hq) as (uid & u' & Hu' & Hname & _).
  by destruct (Hno uid u' Hu').
Qed.

(** X8. A call of findAll that returns has left the store as it was and
    returns its articles newest first, whatever the filters and the page
    bounds are. *)
Theorem findAll_newest_first userId q s ro s' :
  findAll userId q s = (Ok ro, s') →
  s' = s ∧ StronglySorted not_older (ro_articles ro).
Proof.
  intros Hrun. apply findAll_Ok in Hrun as (-> & _ & u & page & _ & Hsub & ->).
  split; [done|]. simpl.
  apply (StronglySorted_fmap _ newer_first).
  - by intros [k a] [k' a'].
  - eapply StronglySorted_sublist; [exact Hsub|]. apply matched_spec.
Qed.

(** X9. The author filter is exact.  For a name that one user has, without
    a favorited filter and with a tag pattern that is a regular expression,
    if there is one: every article a call of findAll returns was written by
    that user and passes the tag filter, and without limit and offset the
    call returns, with every such article. *)
Theorem findAll_by_author userId q s name uid u0 :
  tag_valid q = true →
  q !! "author" = Some name →
  q !! "favorited" = None →
  users s !! uid = Some u0 → username u0 = name →
  (∀ id u, users s !! id = Some u → username u = name → id = uid) →
  (∀ ro s', findAll userId q s = (Ok ro, s') →
     ∀ d, d ∈ ro_articles ro →
       ∃ a, articles s !! data_id d = Some a ∧ author a = Some uid ∧ passes_tag q a) ∧
  (q !! "limit" = None → q !! "offset" = None →
   ∃ ro, findAll userId q s = (Ok ro, s) ∧
     ∀ k a, articles s !! k = Some a → author a = Some uid → passes_tag q a →
       k ∈ map data_id (ro_articles ro)).
Proof.
  intros Hv Hq Hfav Hu0 Hname Huniq.
  assert (∀ a, selected q s a ↔ author a = Some uid ∧ passes_tag q a) as Hsel.
  { intros a. unfold selected. rewrite Hq, Hfav. split.
    - intros (Ht & (uid' & u' & (Hu' & Hn' & _) & Ha) & _).
      rewrite (Huniq uid' u' Hu' Hn') in Ha. done.
    - intros [Ha Ht]. split; [done|]. split; [|done].
      exists uid, u0. split; [|done]. split; [done|]. split; [done|].
      intros k v Hk Hn. rewrite (Huniq k v Hk Hn). lia. }
  destruct (matched_spec q s) as (_ & _ & Hmem). split.
  - intros ro s' Hrun d Hd.
    apply findAll_Ok in Hrun as (_ & _ & u & page & _ & Hsub & ->). simpl in Hd.
    apply list_elem_of_fmap in Hd as ([k a] & -> & Hin).
    exists a. simpl.
    assert ((k, a) ∈ matched q s) as [Hk Ha]%Hmem by (by eapply elem_of_sublist).
    apply Hsel in Ha as [Ha Ht]. done.
  - intros Hl Ho.
    destruct (findAll_page userId q s _ Hv (page_of_unbounded q _ Hl Ho)) as (u & _ & ->).
    eexists. split; [done|]. intros k a Hk Ha Ht. simpl. rewrite data_id_toJSON.
    apply list_elem_of_fmap. exists (k, a). split; [done|].
    apply Hmem. split; [done|]. by apply Hsel.
Qed.

(** X10. The feed of a viewer is made of the articles whose author the
    viewer follows, all of them and no other, each once, newest first.
    The call comes to the page that limit and offset, as numbers, cut from
    them, with their number as the count, or to the error of the query
    builder when it does not take the bounds; without limit and offset it
    returns them all. *)
Theorem findFeed_follows v s :
  ∃ u rows,
    load_viewer (Some v) s = (Ok u, s) ∧
    NoDup (map fst rows) ∧ StronglySorted newer_first rows ∧
    (∀ k a, (k, a) ∈ rows ↔ articles s !! k = Some a ∧ by_followed s v a) ∧
    ∀ q,
      findFeed (Some v) q s
      = paged s u rows (cut (Some (JS.to_number (q !! "limit")))
                            (Some (JS.to_number (q !! "offset"))) rows) ∧
      (q !! "limit" = None → q !! "offset" = None →
       findFeed (Some v) q s
       = (Ok (mkArticlesRO (map (Article_toJSON s u) rows) (Z.of_nat (length rows))), s)).
Proof.
  destruct (load_viewer_run (Some v) s) as [u Hu].
  set (qb := orderBy_createdAt_desc
               (andWhere (cond_author_followers s (Some v)) createQueryBuilder)).
  exists u, (matching_rows qb s). split; [done|].
  split; [apply matching_rows_keys|]. split; [by apply matching_rows_sorted|]. split.
  - intros k a. rewrite elem_of_matching_rows. simpl.
    rewrite <- cond_author_followers_Some with (k := k). split.
    + intros [Hk Hc]. split; [done|]. apply Hc. by apply list_elem_of_singleton.
    + intros [Hk Hc]. split; [done|]. by intros c ->%list_elem_of_singleton.
  - intros q. destruct (findFeed_run (Some v) q s) as (u' & Hu' & Hrun).
    cbv zeta in Hrun. fold qb in Hrun. assert (u' = u) as -> by congruence.
    split; [done|]. intros Hl Ho. rewrite Hrun, Hl, Ho. unfold cut. simpl.
    rewrite apply_offset_NaN. simpl. by rewrite apply_limit_NaN.
Qed.

(** X25. A tag that is no regular expression makes findAll throw a
    SyntaxError where the pattern is built, before the author and favorited
    filters look their users up: the other filters and the page bounds play
    no part, and the store is as it was. *)
Theorem findAll_invalid_tag userId q s pattern :
  q !! "tag" = Some pattern → regexp_valid pattern = false →
  findAll userId q s = (Err SyntaxError, s).
Proof.
  intros Hq Hp. destruct (findAll_run userId q s) as (u & _ & ->).
  unfold tag_valid. by rewrite Hq, Hp.
Qed.
End more_listings.

Lemma findAll_invalid_tag_witness :
  @findAll reference_backend None {["tag" := "("; "author" := "carol"]} sample_store
  = (Err SyntaxError, sample_store).
Proof.
  apply (@findAll_invalid_tag reference_backend None _ sample_store "("); by vm_compute.
Defined.

Lemma findAll_unknown_user_filter_witness :
  @findAll reference_backend None {["author" := "carol"]} sample_store
  = (Ok no_articles, sample_store).
Proof.
  apply (@findAll_unknown_user_filter reference_backend None _ sample_store "author" "carol").
  - by vm_compute.
  - by left.
  - by vm_compute.
  - apply (bool_decide_unpack
             (map_Forall (λ _ u, username u ≠ "carol") (users sample_store))).
    by vm_compute.
Defined.

Lemma findAll_newest_first_witness :
  sample_store = sample_store ∧
  StronglySorted not_older
    (ro_articles (default no_articles (value (@findAll reference_backend None ∅ sample_store)))).
Proof.
  apply (@findAll_newest_first reference_backend None ∅ sample_store). by vm_compute.
Defined.

Lemma findAll_by_author_witness :
  ∃ ro, @findAll reference_backend None {["author" := "bob"]} sample_store
        = (Ok ro, sample_store)
        ∧ 1 ∈ map data_id (ro_articles ro).
Proof.
  destruct (@findAll_by_author reference_backend None {["author" := "bob"]} sample_store
              "bob" 2 bob) as (_ & Hall).
  - by vm_compute.
  - by vm_compute.
  - by vm_compute.
  - by vm_compute.
  - done.
  - apply (bool_decide_unpack
             (map_Forall (λ id u, username u = "bob" → id = 2) (users sample_store))).
    by vm_compute.
  - destruct Hall as (ro & Hrun & Hall); [by vm_compute|by vm_compute|].
    exists ro. split; [exact Hrun|].
    apply (Hall 1 (mkArticle "first" "First" "d1" "b1" ["foo"] 1 100 (Some 2)));
      by vm_compute.
Defined.

(** ** Comments *)

Lemma comment_added_removed s c :
  set_comments (delete (next_id (comments s)))
    (set_comments <[next_id (comments s) := c]> s) = s.
Proof.
  destruct s as [us ar cs ts]. unfold set_comments. simpl.
  by rewrite delete_insert_id by apply next_id_fresh.
Qed.

Lemma article_comments_insert aid s id c :
  comments s !! id = None → comment_article c = aid →
  article_comments aid (set_comments <[id := c]> s) = <[id := c]> (article_comments aid s)
  ∧ article_comments aid s !! id = None.
Proof.
  intros Hnone Hc. unfold article_comments. simpl. split.
  - by rewrite map_filter_insert_True.
  - apply map_lookup_filter_None. by left.
Qed.

(** X11. A completed addComment writes one comment: it gets a key that was
    not in use, carries the given body, the caller as its author and the
    addressed article, and is from then on one of that article's comments.
    The comments there were, the users, the articles and the tags stay as
    they were.  The view returned is that of the addressed article, for an
    author whose favorites were not loaded. *)
Theorem addComment_effect s userId sl dto id c data s' :
  addComment userId sl dto s = (Ok (id, c, data), s') →
  ∃ aid a u,
    article_by_slug sl s = Some (aid, a) ∧ users s !! userId = Some u ∧
    comments s !! id = None ∧
    c = mkComment (dto_comment_body dto) userId aid ∧
    comments s' = <[id := c]> (comments s) ∧
    article_comments aid s' !! id = Some c ∧
    (∀ j, j ≠ id → comments s' !! j = comments s !! j) ∧
    users s' = users s ∧ articles s' = articles s ∧ tags s' = tags s ∧
    data_id data = aid ∧ data_favorited data = false.
Proof.
  rewrite addComment_run.
  destruct (article_by_slug sl s) as [[aid a]|] eqn:Hfind; [|done].
  destruct (users s !! userId) as [u|] eqn:Hu; [|done].
  cbv beta iota zeta. intros [= <- <- <- <-]. exists aid, a, u.
  pose proof (next_id_fresh (comments s)) as Hfresh.
  destruct (article_comments_insert aid s (next_id (comments s))
              (new_Comment userId aid (dto_comment_body dto)) Hfresh eq_refl) as [Hins _].
  repeat split; try done.
  - rewrite Hins. apply lookup_insert_eq.
  - intros j Hj. simpl. by rewrite lookup_insert_ne.
Qed.

Lemma addComment_effect_witness :
  ∃ aid a u,
    article_by_slug "first" sample_store = Some (aid, a) ∧
    users sample_store !! 1 = Some u ∧
    comments sample_store !! 3 = None.
Proof.
  destruct (addComment_effect sample_store 1 "first" (mkCommentDto "hi") 3 _ _ _ eq_refl)
    as (aid & a & u & Hfind & Hu & Hfresh & _).
  by exists aid, a, u.
Defined.

(** X12. A comment that addComment has written is removed again by
    deleteComment with the key it was given, and the store is then the one
    before the comment was added.  The deleting user need not be the one
    who wrote the comment: any user there is will do. *)
Theorem addComment_then_deleteComment s userId sl dto id c data s1 viewer v :
  addComment userId sl dto s = (Ok (id, c, data), s1) →
  users s !! viewer = Some v →
  ∃ data', deleteComment viewer sl id s1 = (Ok data', s).
Proof.
  rewrite addComment_run.
  destruct (article_by_slug sl s) as [[aid a]|] eqn:Hfind; [|done].
  destruct (users s !! userId) as [u|] eqn:Hu; [|done].
  cbv beta iota zeta. intros [= <- <- <- <-] Hv.
  rewrite deleteComment_run.
  change (article_by_slug sl (set_comments _ s)) with (article_by_slug sl s).
  change (users (set_comments _ s)) with (users s).
  rewrite Hfind, Hv. cbv beta iota zeta.
  pose proof (next_id_fresh (comments s)) as Hfresh.
  destruct (article_comments_insert aid s (next_id (comments s))
              (new_Comment userId aid (dto_comment_body dto)) Hfresh eq_refl) as [Hins _].
  rewrite Hins, lookup_insert_eq.
  rewrite bool_decide_eq_true_2 by (by eexists).
  rewrite comment_added_removed. by eexists.
Qed.

Lemma addComment_then_deleteComment_witness :
  ∃ data', deleteComment 2 "first" 3
             (addComment 1 "first" (mkCommentDto "hi") sample_store).2
           = (Ok data', sample_store).
Proof.
  exact (addComment_then_deleteComment sample_store 1 "first" (mkCommentDto "hi")
           3 _ _ _ 2 bob eq_refl eq_refl).
Defined.

(** X13. findComments after a completed addComment returns the comments it
    returned before together with the new one, in some order. *)
Theorem addComment_then_findComments s userId sl dto id c data s1 :
  addComment userId sl dto s = (Ok (id, c, data), s1) →
  ∃ before after,
    findComments sl s = (Returned before, s) ∧
    findComments sl s1 = (Returned after, s1) ∧
    after ≡ₚ (id, c) :: before.
Proof.
  rewrite addComment_run.
  destruct (article_by_slug sl s) as [[aid a]|] eqn:Hfind; [|done].
  destruct (users s !! userId) as [u|] eqn:Hu; [|done].
  cbv beta iota zeta. intros [= <- <- <- <-]. unfold findComments.
  change (article_by_slug sl (set_comments _ s)) with (article_by_slug sl s).
  rewrite Hfind. eexists _, _. split; [done|]. split; [done|].
  pose proof (next_id_fresh (comments s)) as Hfresh.
  destruct (article_comments_insert aid s (next_id (comments s))
              (new_Comment userId aid (dto_comment_body dto)) Hfresh eq_refl)
    as [-> Hnone].
  by apply map_to_list_insert.
Qed.

Lemma addComment_then_findComments_witness :
  ∃ before after,
    findComments "first" sample_store = (Returned before, sample_store) ∧
    findComments "first" (addComment 1 "first" (mkCommentDto "hi") sample_store).2
      = (Returned after, (addComment 1 "first" (mkCommentDto "hi") sample_store).2) ∧
    after ≡ₚ (3, mkComment "hi" 1 1) :: before.
Proof.
  exact (addComment_then_findComments sample_store 1 "first" (mkCommentDto "hi")
           3 _ _ _ eq_refl).
Defined.

(** X14. deleteComment removes a comment of the addressed article for any
    user there is, whoever wrote the comment, and returns the view of that
    article; the other comments stay, and a second call with the same
    arguments returns and changes nothing more. *)
Theorem deleteComment_member s userId sl id u aid a c :
  users s !! userId = Some u →
  article_by_slug sl s = Some (aid, a) →
  comments s !! id = Some c → comment_article c = aid →
  let s' := set_comments (delete id) s in
  (∃ data, deleteComment userId sl id s = (Ok data, s') ∧
           data_id data = aid ∧ data_favorited data = false) ∧
  comments s' !! id = None ∧
  (∀ j, j ≠ id → comments s' !! j = comments s !! j) ∧
  (∃ data, deleteComment userId sl id s' = (Ok data, s') ∧ data_id data = aid).
Proof.
  intros Hu Hfind Hc Hart s'.
  assert (article_comments aid s !! id = Some c) as Hmem
    by (by apply map_lookup_filter_Some).
  assert (article_comments aid s' !! id = None) as Hgone.
  { apply map_lookup_filter_None. left. simpl. apply lookup_delete_eq. }
  split; [|split; [|split]].
  - rewrite deleteComment_run, Hfind, Hu, Hmem.
    rewrite bool_decide_eq_true_2 by (by eexists). by eexists.
  - simpl. apply lookup_delete_eq.
  - intros j Hj. simpl. by rewrite lookup_delete_ne.
  - rewrite deleteComment_run.
    change (article_by_slug sl s') with (article_by_slug sl s).
    change (users s') with (users s).
    rewrite Hfind, Hu, Hgone.
    rewrite bool_decide_eq_false_2 by (by intros [? ?]). by eexists.
Qed.

Lemma deleteComment_member_witness :
  ∃ data, deleteComment 2 "first" 1 sample_store
          = (Ok data, set_comments (delete 1) sample_store)
          ∧ data_id data = 1 ∧ data_favorited data = false.
Proof.
  apply (deleteComment_member sample_store 2 "first" 1 bob 1
           (mkArticle "first" "First" "d1" "b1" ["foo"] 1 100 (Some 2))
           (mkComment "nice" 1 1));
    by vm_compute.
Defined.

(** ** Update *)

Lemma assign_nothing a : assign no_patch a = a.
Proof. by destruct a as [? ? ? ? ? ? ? []]. Qed.

(** X16. update never looks at who calls: for any user id, known or not,
    it overwrites the columns that are given on the article with the slug
    and keeps the others, the slug among them when only the title changes;
    the article is then still found by its slug.  The other articles, the
    users, the comments and the tags are not touched, and a patch that
    gives nothing leaves the store as it was. *)
Theorem update_effect s userId sl p aid a :
  article_by_slug sl s = Some (aid, a) →
  ∃ data s',
    update userId sl p s = (Returned data, s') ∧
    data = Article_toJSON s' (users s !! userId) (aid, assign p a) ∧
    articles s' = <[aid := assign p a]> (articles s) ∧
    users s' = users s ∧ comments s' = comments s ∧ tags s' = tags s ∧
    title (assign p a) = default (title a) (patch_title p) ∧
    description (assign p a) = default (description a) (patch_description p) ∧
    body (assign p a) = default (body a) (patch_body p) ∧
    tagList (assign p a) = default (tagList a) (patch_tagList p) ∧
    (patch_slug p = None →
     slug (assign p a) = sl ∧ article_by_slug sl s' = Some (aid, assign p a)) ∧
    (p = no_patch → s' = s).
Proof.
  intros Hfind. unfold update. rewrite Hfind. cbv beta iota zeta.
  eexists _, _. do 10 (split; [done|]). split.
  - intros Hslug. split.
    { simpl. rewrite Hslug. simpl.
      by destruct (article_by_slug_lookup _ _ _ _ Hfind) as [_ ->]. }
    change (set_articles <[aid := assign p a]> s)
      with (set_articles <[aid := assign p a]> (set_users id s)).
    apply (article_by_slug_update sl s aid a); [done|].
    simpl. by rewrite Hslug.
  - intros ->. rewrite assign_nothing.
    destruct (article_by_slug_lookup _ _ _ _ Hfind) as [Ha _].
    destruct s as [us ar cs ts]. unfold set_articles. simpl in *.
    by rewrite insert_id.
Qed.

Lemma update_effect_witness :
  ∃ data s',
    update 9 "first" (mkPatch None (Some "New title") None None None None None None)
      sample_store = (Returned data, s') ∧
    data_title data = "New title" ∧ data_slug data = "first".
Proof.
  destruct (update_effect sample_store 9 "first"
              (mkPatch None (Some "New title") None None None None None None) 1 _ eq_refl)
    as (data & s' & Hrun & Hdata & _).
  exists data, s'. split; [exact Hrun|]. by rewrite Hdata.
Defined.

(** X17. update keeps the counters in sync with the favorites sets as long
    as the patch does not give favoritesCount, whether the article is found
    or not. *)
Theorem update_keeps_counters s userId sl p :
  patch_favoritesCount p = None →
  counters_in_sync s →
  counters_in_sync (update userId sl p s).2.
Proof.
  intros Hp Hsync. unfold update.
  destruct (article_by_slug sl s) as [[aid a]|] eqn:Hfind; [|done].
  cbv beta iota zeta. simpl snd.
  destruct (article_by_slug_lookup _ _ _ _ Hfind) as [Ha _].
  intros k b Hk. cbv beta.
  change (favoritedBy k (set_articles <[aid := assign p a]> s)) with (favoritedBy k s).
  simpl in Hk. destruct (decide (k = aid)) as [->|Hne].
  - rewrite lookup_insert_eq in Hk. injection Hk as <-.
    simpl. rewrite Hp. simpl. by apply Hsync.
  - rewrite lookup_insert_ne in Hk by done. by apply Hsync.
Qed.

Lemma update_keeps_counters_witness :
  counters_in_sync
    (update 1 "first" (mkPatch None (Some "T") None (Some "B") None None None None)
       sample_store).2.
Proof.
  apply (update_keeps_counters sample_store 1 "first"); [reflexivity|].
  apply (bool_decide_unpack (counters_in_sync sample_store)). by vm_compute.
Defined.

(** ** Creation, again *)

Lemma create_run now sl userId dto s u :
  users s !! userId = Some u →
  JS.truthy_string (dto_title dto) = true →
  JS.truthy_string (dto_description dto) = true →
  JS.truthy_string (dto_body dto) = true →
  create now sl userId dto s
  = (Ok (Article_toJSON (created_store now sl userId dto s) (Some u)
           (next_id (articles s), created_article now sl userId dto)),
     created_store now sl userId dto s).
Proof.
  intros Hu Ht Hd Hb.
  unfold create. rewrite Ht, Hd, Hb.
  change (negb true || negb true || negb true) with false. cbv beta iota zeta.
  unfold bind at 1. unfold user_findOne, gets. rewrite Hu. cbv beta iota zeta.
  unfold bind at 1, transactional. unfold bind at 1, persist_article. cbv beta iota zeta.
  unfold bind at 1, tag_find, gets. cbv beta iota zeta. unfold bind at 1.
  rewrite for_each_insert_missing. cbv beta iota zeta. unfold ret at 1. unfold render, gets.
  done.
Qed.

(** X18. A completed create, for a caller that exists, writes one article
    under a key that was not in use: it has the given slug, title,
    description and body, the normalized tags, no favorites, the clock
    reading as its creation time and the caller as its author.  The
    articles there were, the users and the comments stay as they were. *)
Theorem create_effect now sl userId dto s u :
  users s !! userId = Some u →
  JS.truthy_string (dto_title dto) = true →
  JS.truthy_string (dto_description dto) = true →
  JS.truthy_string (dto_body dto) = true →
  ∃ data s' a,
    create now sl userId dto s = (Ok data, s') ∧
    articles s !! data_id data = None ∧
    articles s' = <[data_id data := a]> (articles s) ∧
    users s' = users s ∧ comments s' = comments s ∧
    slug a = sl ∧ Some (title a) = dto_title dto ∧
    Some (description a) = dto_description dto ∧ Some (body a) = dto_body dto ∧
    tagList a = processTags (dto_tagList dto) ∧
    favoritesCount a = 0 ∧ createdAt a = now ∧ author a = Some userId ∧
    data = Article_toJSON s (Some u) (data_id data, a).
Proof.
  intros Hu Ht Hd Hb. rewrite (create_run now sl userId dto s u Hu Ht Hd Hb).
  eexists _, _, (created_article now sl userId dto). split; [done|].
  split; [apply next_id_fresh|]. do 3 (split; [done|]).
  assert (∀ o, JS.truthy_string o = true → Some (default "" o) = o) as Hsome.
  { intros [x|] Hx; [done|]. by simpl in Hx. }
  repeat split; try done; by apply Hsome.
Qed.

Lemma create_effect_witness :
  ∃ data s' a,
    create 300 "third-x" 1 (mkDto (Some "Third") (Some "d") (Some "b") (TagArray ["x"]))
      sample_store = (Ok data, s') ∧
    articles sample_store !! data_id data = None ∧
    articles s' = <[data_id data := a]> (articles sample_store) ∧
    author a = Some 1.
Proof.
  destruct (create_effect 300 "third-x" 1
              (mkDto (Some "Third") (Some "d") (Some "b") (TagArray ["x"]))
              sample_store alice eq_refl eq_refl eq_refl eq_refl)
    as (data & s' & a & Hrun & Hfresh & Harts & _ & _ & _ & _ & _ & _ & _ & _ & _ & Hauthor & _).
  by exists data, s', a.
Defined.

(** X19. create keeps two invariants of the store together: that every
    favorite is an article there is, and that every counter equals the
    number of users who hold the article. *)
Theorem create_keeps_counters now sl userId dto s u :
  users s !! userId = Some u →
  JS.truthy_string (dto_title dto) = true →
  JS.truthy_string (dto_description dto) = true →
  JS.truthy_string (dto_body dto) = true →
  favorites_exist s → counters_in_sync s →
  favorites_exist (create now sl userId dto s).2 ∧
  counters_in_sync (create now sl userId dto s).2.
Proof.
  intros Hu Ht Hd Hb Hexist Hsync.
  rewrite (create_run now sl userId dto s u Hu Ht Hd Hb). simpl snd.
  pose proof (next_id_fresh (articles s)) as Hfresh.
  set (aid := next_id (articles s)) in *.
  split.
  - intros i v Hi x Hx. simpl in Hi. simpl.
    destruct (Hexist i v Hi x Hx) as [b Hb'].
    destruct (decide (x = aid)) as [->|Hne]; [congruence|].
    rewrite lookup_insert_ne by done. by exists b.
  - intros k b Hk. cbv beta.
    change (favoritedBy k (created_store now sl userId dto s)) with (favoritedBy k s).
    simpl in Hk. fold aid in Hk. destruct (decide (k = aid)) as [->|Hne].
    + rewrite lookup_insert_eq in Hk. injection Hk as <-. simpl.
      unfold favoritedBy.
      assert (filter (λ r : Z * User, aid ∈ favorites r.2) (users s) = ∅) as ->;
        [|by rewrite map_size_empty].
      apply map_empty_filter. intros i v Hi Hx. simpl in Hx.
      destruct (Hexist i v Hi aid Hx) as [b Hb']. congruence.
    + rewrite lookup_insert_ne in Hk by done. by apply Hsync.
Qed.

Lemma sample_favorites_exist : favorites_exist sample_store.
Proof.
  intros i v Hi x Hx.
  assert (map_Forall (λ _ v, Forall (λ x : Z, x = 1) (elements (favorites v)))
            (users sample_store)) as Hall
    by (apply (bool_decide_unpack _); by vm_compute).
  specialize (Hall i v Hi). cbv beta in Hall. rewrite Forall_forall in Hall.
  apply elem_of_elements, Hall in Hx as ->. eexists. by vm_compute.
Qed.

Lemma create_keeps_counters_witness :
  favorites_exist
    (create 300 "third-x" 1 (mkDto (Some "Third") (Some "d") (Some "b") (TagArray ["x"]))
       sample_store).2 ∧
  counters_in_sync
    (create 300 "third-x" 1 (mkDto (Some "Third") (Some "d") (Some "b") (TagArray ["x"]))
       sample_store).2.
Proof.
  apply (create_keeps_counters 300 "third-x" 1 _ sample_store alice);
    try reflexivity.
  - exact sample_favorites_exist.
  - exact sample_store_in_sync.
Defined.

Lemma created_tag_rows now sl userId dto s t :
  tag_rows t (created_store now sl userId dto s)
  = if bool_decide (t ∈ processTags (dto_tagList dto))
    then Nat.max 1 (tag_rows t s) else tag_rows t s.
Proof.
  unfold tag_rows, created_store. cbv zeta.
  set (names := processTags (dto_tagList dto)).
  set (existing := JS.Set_of _).
  change (tags (set_tags (insert_missing existing names) _))
    with (insert_missing existing names (tags s)).
  rewrite insert_missing_rows by apply Set_of_NoDup.
  destruct (bool_decide (t ∈ names)) eqn:Hin; simpl; [|lia].
  apply bool_decide_eq_true in Hin.
  pose proof (existing_names names (tags s) t Hin) as Hex.
  change (JS.Set_of _) with existing in Hex.
  destruct (bool_decide (t ∈ existing)) eqn:Hmem; simpl.
  - apply bool_decide_eq_true in Hmem. apply Hex in Hmem. lia.
  - apply bool_decide_eq_false in Hmem.
    destruct (decide (size (filter (named t) (tags s)) = 0%nat)) as [->|Hne]; [done|].
    by apply Hex in Hne.
Qed.

(** X20. create never writes a second row for a tag name: when no name has
    two rows in the Tag table before the call, none has afterwards. *)
Theorem create_keeps_tags_unique now sl userId dto s u :
  users s !! userId = Some u →
  JS.truthy_string (dto_title dto) = true →
  JS.truthy_string (dto_description dto) = true →
  JS.truthy_string (dto_body dto) = true →
  tags_unique s →
  tags_unique (create now sl userId dto s).2.
Proof.
  intros Hu Ht Hd Hb Huniq t.
  rewrite (create_run now sl userId dto s u Hu Ht Hd Hb). simpl snd.
  rewrite created_tag_rows. specialize (Huniq t).
  destruct (bool_decide (t ∈ processTags (dto_tagList dto))); lia.
Qed.

Lemma sample_tags_unique : tags_unique sample_store.
Proof.
  intros t. unfold tag_rows.
  change (tags sample_store) with ({[1 := mkTag "foo"]} : gmap Z Tag).
  rewrite map_filter_singleton. case_decide.
  - by rewrite map_size_singleton.
  - rewrite map_size_empty. lia.
Qed.

Lemma create_keeps_tags_unique_witness :
  tags_unique
    (create 300 "third-x" 1
       (mkDto (Some "Third") (Some "d") (Some "b") (TagString "foo, bar, foo"))
       sample_store).2.
Proof.
  apply (create_keeps_tags_unique 300 "third-x" 1 _ sample_store alice);
    try reflexivity.
  exact sample_tags_unique.
Defined.

Lemma Set_of_head l x acc :
  ∃ rest, fold_left JS.set_add l (x :: acc) = x :: rest.
Proof.
  revert acc. induction l as [|y l IH]; intros acc; simpl; [by eexists|].
  unfold JS.set_add at 2. case_bool_decide; [apply IH|].
  apply (IH (acc ++ [y])%list).
Qed.

(** X21. A tagList given as a string always yields at least one tag name,
    because splitting never gives an empty array: the empty string yields
    the one empty name.  An empty array yields none. *)
Theorem processTags_of_string s :
  (∃ t rest, processTags (TagString s) = t :: rest) ∧
  processTags (TagString "") = [""] ∧
  processTags (TagArray []) = [].
Proof.
  split; [|by vm_compute].
  unfold processTags, trimmed_tags, JS.split.
  destruct (split_from_nonempty "," [] s) as (p & rest & ->). simpl.
  unfold JS.Set_of. simpl.
  destruct (Set_of_head (map JS.trim rest) (JS.trim p) []) as [r Hr].
  exists (JS.trim p), r. exact Hr.
Qed.

(** X22. Every tag name processTags yields is trimmed: it has no white
    space at its start and none at its end. *)
Theorem processTags_trimmed tagList t :
  t ∈ processTags tagList → trimmed (list_ascii_of_string t).
Proof.
  unfold processTags. rewrite elem_of_Set_of.
  assert (∀ l : list string, t ∈ map JS.trim l → trimmed (list_ascii_of_string t)) as Hmap.
  { intros l (piece & -> & _)%list_elem_of_fmap. unfold JS.trim.
    rewrite list_ascii_of_string_of_list_ascii. apply trim_chars_trimmed. }
  destruct tagList as [s|l|]; simpl.
  - apply Hmap.
  - apply Hmap.
  - by intros ?%elem_of_nil.
Qed.

Lemma processTags_trimmed_witness :
  trimmed (list_ascii_of_string "bar").
Proof.
  apply (processTags_trimmed (TagString " foo ,  bar") "bar").
  apply (bool_decide_unpack _). by vm_compute.
Defined.

(** X23. favorite and unFavorite keep every favorite an article there is:
    they add only the article they found and remove no article. *)
Theorem favorite_unFavorite_keep_favorites_exist s id sl :
  favorites_exist s →
  favorites_exist (favorite id sl s).2 ∧ favorites_exist (unFavorite id sl s).2.
Proof.
  intros Hexist.
  assert (∀ aid a u u' a',
    articles s !! aid = Some a → users s !! id = Some u →
    (∀ x, x ∈ favorites u' → x ∈ favorites u ∨ x = aid) →
    favorites_exist (set_articles <[aid := a']> (set_users <[id := u']> s))) as Hstep.
  { intros aid a u u' a' Ha Hu Hsub i v Hi x Hx. simpl in Hi. simpl.
    assert (is_Some (articles s !! x)) as [b Hb].
    { destruct (decide (i = id)) as [->|Hne].
      - rewrite lookup_insert_eq in Hi. injection Hi as <-.
        destruct (Hsub x Hx) as [Hx'| ->]; [by apply (Hexist id u Hu)|by exists a].
      - rewrite lookup_insert_ne in Hi by done. by apply (Hexist i v Hi). }
    destruct (decide (x = aid)) as [->|Hne].
    - rewrite lookup_insert_eq. by eexists.
    - rewrite lookup_insert_ne by done. by exists b. }
  split.
  - rewrite favorite_run.
    destruct (article_by_slug sl s) as [[aid a]|] eqn:Hfind; [|done].
    destruct (users s !! id) as [u|] eqn:Hu; [|done].
    destruct (article_by_slug_lookup _ _ _ _ Hfind) as [Ha _].
    destruct (bool_decide (aid ∈ favorites u)); cbv beta iota zeta; simpl snd;
      apply (Hstep aid a u _ _ Ha eq_refl); intros x; simpl;
      rewrite ?elem_of_union, ?elem_of_singleton; tauto.
  - rewrite unFavorite_run.
    destruct (article_by_slug sl s) as [[aid a]|] eqn:Hfind; [|done].
    destruct (users s !! id) as [u|] eqn:Hu; [|done].
    destruct (article_by_slug_lookup _ _ _ _ Hfind) as [Ha _].
    destruct (bool_decide (aid ∈ favorites u)); cbv beta iota zeta; simpl snd;
      apply (Hstep aid a u _ _ Ha eq_refl); intros x; simpl;
      rewrite ?elem_of_difference, ?elem_of_singleton; tauto.
Qed.

Lemma favorite_unFavorite_keep_favorites_exist_witness :
  favorites_exist (favorite 1 "second" sample_store).2 ∧
  favorites_exist (unFavorite 2 "first" sample_store).2.
Proof.
  split.
  - exact (proj1 (favorite_unFavorite_keep_favorites_exist sample_store 1 "second"
                    sample_favorites_exist)).
  - exact (proj2 (favorite_unFavorite_keep_favorites_exist sample_store 2 "first"
                    sample_favorites_exist)).
Defined.

(** X24. An article created under a slug that no article had can be
    favorited by its author at once: create reports it with no favorites
    and not favorited, and favorite on the same slug then finds that very
    article and reports it favorited with a count of 1. *)
Theorem create_then_favorite now sl userId dto s u :
  users s !! userId = Some u →
  JS.truthy_string (dto_title dto) = true →
  JS.truthy_string (dto_description dto) = true →
  JS.truthy_string (dto_body dto) = true →
  (∀ k a, articles s !! k = Some a → slug a ≠ sl) →
  favorites_exist s →
  ∃ data s1 data2 s2,
    create now sl userId dto s = (Ok data, s1) ∧
    favorite userId sl s1 = (Ok data2, s2) ∧
    data_id data2 = data_id data ∧
    data_favorited data = false ∧ data_favoritesCount data = 0 ∧
    data_favorited data2 = true ∧ data_favoritesCount data2 = 1.
Proof.
  intros Hu Ht Hd Hb Hslug Hexist.
  rewrite (create_run now sl userId dto s u Hu Ht Hd Hb).
  pose proof (next_id_fresh (articles s)) as Hfresh.
  set (aid := next_id (articles s)) in *.
  set (a := created_article now sl userId dto).
  set (s1 := created_store now sl userId dto s).
  assert (articles s1 = <[aid := a]> (articles s)) as Harts by done.
  assert (users s1 = users s) as Husers by done.
  assert (aid ∉ favorites u) as Hnot.
  { intros Hin. destruct (Hexist userId u Hu aid Hin) as [b Hb']. congruence. }
  assert (article_by_slug sl s1 = Some (aid, a)) as Hfind.
  { unfold article_by_slug. apply first_row_Some. rewrite Harts.
    split; [apply lookup_insert_eq|]. split; [by apply bool_decide_eq_true|].
    intros k' v' Hk' HP. destruct (decide (k' = aid)) as [->|Hne]; [lia|].
    rewrite lookup_insert_ne in Hk' by done.
    apply bool_decide_eq_true in HP. by destruct (Hslug k' v' Hk'). }
  eexists _, s1. rewrite favorite_run, Hfind, Husers, Hu.
  rewrite (bool_decide_eq_false_2 _ Hnot). cbv beta iota zeta.
  eexists _, _. split; [done|]. split; [done|]. simpl.
  rewrite (bool_decide_eq_false_2 _ Hnot).
  rewrite bool_decide_eq_true_2 by apply favorites_add_self. done.
Qed.

Lemma create_then_favorite_witness :
  ∃ data s1 data2 s2,
    create 300 "third-x" 1 (mkDto (Some "Third") (Some "d") (Some "b") TagOther)
      sample_store = (Ok data, s1) ∧
    favorite 1 "third-x" s1 = (Ok data2, s2) ∧
    data_id data2 = data_id data ∧
    data_favorited data = false ∧ data_favoritesCount data = 0 ∧
    data_favorited data2 = true ∧ data_favoritesCount data2 = 1.
Proof.
  apply (create_then_favorite 300 "third-x" 1 _ sample_store alice);
    try reflexivity.
  - apply (article_by_slug_None "third-x" sample_store). by vm_compute.
  - exact sample_favorites_exist.
Defined.
